(** * The marketplace crawler ([src/src/crawler.py]) in Rocq

    A shallow embedding of the crawler: the entry normalizer
    [_parse_api_server], the markup extractor [_parse_tools_from_html], the
    detail fetcher [_fetch_detail_page], the enrichment orchestrator
    [_enrich_with_tools] and the scan orchestrator [scan_marketplace_sync],
    followed by the properties of the specification settled against them.

    Conventions.
    - Python values that come out of [response.json()] are terms of [Json].
    - Python exceptions are values of [PyExn]; code that may raise returns a
      [result], and [x ← e; k] is sequencing that propagates a raise.
    - The catalog entries are Python objects mutated in place: they live in a
      store ([gmap loc ServerInfo.t]) and the lists of the program hold
      references into it.
    - A Python [str] is the string of its UTF-8 bytes, a surrogate code
      point, which a [str] may hold on its own, being written with the three
      bytes that the [surrogatepass] handler gives it.  Equality,
      concatenation, the split at an ASCII separator and the search for a
      substring read the same on the bytes as on the characters, and are
      written out on the bytes.
    - What the program takes from outside the repository (the lxml parser
      behind [BeautifulSoup], pydantic's field validation, [str()] of a JSON
      value, and the string methods that rest on the Unicode character
      database, [str.strip] and [str.isupper]) is the interface
      [Libraries]; every theorem holds for all its implementations.
    - A response is an object of the [requests] library or of the test
      double of the repository ([src/requests_mock.py]); each class has its
      own [raise_for_status]. *)

From stdpp Require Import gmap strings list sorting pretty.
From Stdlib Require Import Ascii PrimFloat.

Open Scope string_scope.
Open Scope list_scope.

(* ===================================================================== *)
(** ** Python values, exceptions and results                              *)
(* ===================================================================== *)

(** The value of [response.json()]: what [json.loads] builds.  A mapping
    keeps its bindings in a list; [dict.get] reads the first binding of a
    key. *)
#[warnings="-register-all"]
Inductive Json :=
| JNull
| JBool (b : bool)
| JInt (z : Z)
| JFloat (f : float)
| JStr (s : string)
| JArr (items : list Json)
| JObj (bindings : list (string * Json)).

Inductive ExnClass :=
| RequestException   (* requests.RequestException, not an HTTPError *)
| HTTPError          (* requests.HTTPError, a subclass of RequestException *)
| AttributeError
| TypeError
| IndexError
| ValueError
| ValidationError    (* pydantic *)
| OtherException.    (* any other subclass of Exception *)

Record PyExn := mkExn { exn_class : ExnClass; exn_msg : string }.

(** [isinstance(e, requests.RequestException)] *)
Definition is_RequestException (e : PyExn) : bool :=
  match exn_class e with
  | RequestException | HTTPError => true
  | _ => false
  end.

Inductive result (A : Type) :=
| Ok (a : A)
| Raise (e : PyExn).
Arguments Ok {A} a.
Arguments Raise {A} e.

Global Instance result_ret : MRet result := λ A, Ok.
Global Instance result_bind : MBind result := λ A B f m,
  match m with
  | Ok a => f a
  | Raise e => Raise e
  end.

(** Python truth value of a JSON value. *)
Definition py_truthy (v : Json) : bool :=
  match v with
  | JNull => false
  | JBool b => b
  | JInt z => negb (z =? 0)%Z
  | JFloat f => negb (PrimFloat.eqb f 0%float)
  | JStr s => negb (bool_decide (s = ""))
  | JArr items => negb (bool_decide (length items = 0))
  | JObj bindings => negb (bool_decide (length bindings = 0))
  end.

(** [a or b] *)
Definition py_or (a b : Json) : Json := if py_truthy a then a else b.

Fixpoint assoc (k : string) (bindings : list (string * Json)) : option Json :=
  match bindings with
  | [] => None
  | (k', v) :: rest => if decide (k' = k) then Some v else assoc k rest
  end.

(** [d.get(k, default)]: only a mapping has the method. *)
Definition py_get (d : Json) (k : string) (fallback : Json) : result Json :=
  match d with
  | JObj bindings => Ok (default fallback (assoc k bindings))
  | _ => Raise (mkExn AttributeError "object has no attribute 'get'")
  end.

(** [xs[i]] on a list of strings *)
Definition py_index (xs : list string) (i : nat) : result string :=
  match xs !! i with
  | Some x => Ok x
  | None => Raise (mkExn IndexError "list index out of range")
  end.

(* ===================================================================== *)
(** ** Strings                                                            *)
(* ===================================================================== *)

(** The text before and after the first occurrence of [sep], if any. *)
Fixpoint partition_first (sep : ascii) (s : string) : option (string * string) :=
  match s with
  | EmptyString => None
  | String c rest =>
      if decide (c = sep) then Some ("", rest)
      else match partition_first sep rest with
           | Some (before, after) => Some (String c before, after)
           | None => None
           end
  end.

(** [s.split(sep, 1)] for a one-character separator *)
Definition str_split1 (sep : ascii) (s : string) : list string :=
  match partition_first sep s with
  | Some (before, after) => [before; after]
  | None => [s]
  end.

(** The receiver of [v.split(...)]: among JSON values only a [str] has the
    method. *)
Definition split_receiver (v : Json) : result string :=
  match v with
  | JStr s => Ok s
  | _ => Raise (mkExn AttributeError "object has no attribute 'split'")
  end.

(** [sep in s] for a one-character [sep] *)
Fixpoint str_has (sep : ascii) (s : string) : bool :=
  match s with
  | EmptyString => false
  | String c rest => bool_decide (c = sep) || str_has sep rest
  end.

(** [needle in haystack] *)
Fixpoint str_contains (needle haystack : string) : bool :=
  String.prefix needle haystack ||
  match haystack with
  | EmptyString => false
  | String _ rest => str_contains needle rest
  end.

(** The characters of ASCII: their white space and their letters, as Python
    classifies them. *)
Definition char_code (c : ascii) : nat := nat_of_ascii c.

(** [c.isspace()] for an ASCII character: tab to carriage return, the four
    separators, space *)
Definition char_isspace (c : ascii) : bool :=
  let n := char_code c in
  ((9 <=? n) && (n <=? 13) || (28 <=? n) && (n <=? 32))%nat.

Definition char_isupper (c : ascii) : bool :=
  let n := char_code c in ((65 <=? n) && (n <=? 90))%nat.

Definition char_islower (c : ascii) : bool :=
  let n := char_code c in ((97 <=? n) && (n <=? 122))%nat.

Fixpoint str_forall (p : ascii → bool) (s : string) : bool :=
  match s with
  | EmptyString => true
  | String c rest => p c && str_forall p rest
  end.

(** [s.isascii()]: every character is below U+0080, so that every byte of
    the string is a character. *)
Definition is_ascii (s : string) : bool :=
  str_forall (λ c, (char_code c <? 128)%nat) s.

Fixpoint ascii_lstrip (s : string) : string :=
  match s with
  | EmptyString => ""
  | String c rest => if char_isspace c then ascii_lstrip rest else s
  end.

Fixpoint ascii_rstrip (s : string) : string :=
  match s with
  | EmptyString => ""
  | String c rest =>
      match ascii_rstrip rest with
      | EmptyString => if char_isspace c then "" else String c ""
      | rest' => String c rest'
      end
  end.

(** What [s.strip()] is for an ASCII string *)
Definition ascii_strip (s : string) : string := ascii_rstrip (ascii_lstrip s).

(** What [s.isupper()] is for an ASCII string: no lower-case letter and at
    least one upper-case one *)
Definition ascii_isupper (s : string) : bool :=
  str_forall (λ c, negb (char_islower c)) s &&
  negb (str_forall (λ c, negb (char_isupper c)) s).

(** The [str] holds a surrogate code point, U+D800 to U+DFFF: the byte 0xED
    followed by a byte from 0xA0 to 0xBF.  Such a [str] has no UTF-8
    encoding: [s.encode("utf-8")] raises a [UnicodeEncodeError]. *)
Fixpoint has_surrogate (s : string) : bool :=
  match s with
  | String c (String c' _ as rest) =>
      (char_code c =? 237)%nat && (160 <=? char_code c')%nat
        && (char_code c' <? 192)%nat
      || has_surrogate rest
  | _ => false
  end.

(** [sep.join(xs)] *)
Fixpoint str_join (sep : string) (xs : list string) : string :=
  match xs with
  | [] => ""
  | [x] => x
  | x :: rest => x +:+ sep +:+ str_join sep rest
  end.

(* ===================================================================== *)
(** ** Record model                                                       *)
(* ===================================================================== *)

Module ToolInfo.
Record t := mk { name : string; description : option string }.
End ToolInfo.

Module ServerInfo.
Record t := mk {
  name : string;
  slug : string;
  publisher : string;
  description : option string;
  github_url : option string;
  marketplace_url : string;
  language : option string;
  heat_score : option Z;
  upvote_count : option Z;
  tools : list ToolInfo.t;
  auth_required : option string
}.

(** [server.tools = ts] *)
Definition set_tools (ts : list ToolInfo.t) (s : t) : t :=
  mk (name s) (slug s) (publisher s) (description s) (github_url s)
     (marketplace_url s) (language s) (heat_score s) (upvote_count s)
     ts (auth_required s).
End ServerInfo.

Module ScanResult.
Record t := mk {
  total_servers : Z;
  servers : list ServerInfo.t;
  errors : list string
}.
End ScanResult.

Definition MARKETPLACE_API_URL : string := "https://www.dedaluslabs.ai/api/marketplace".
Definition MARKETPLACE_BASE_URL : string := "https://www.dedaluslabs.ai/marketplace".
Definition GITHUB_BASE_URL : string := "https://github.com".
Definition REQUEST_TIMEOUT : Z := 30.
Definition MAX_WORKERS : nat := 5.

(* ===================================================================== *)
(** ** Parsed markup                                                      *)
(* ===================================================================== *)

(** The tree that [BeautifulSoup(html, "lxml")] builds.  A string node is a
    [NavigableString] ([NString]) or one of its subclasses that [get_text]
    leaves out, such as a comment ([NComment]).  Of the attributes of a tag
    the crawler reads only [class], which the HTML tree builders keep as the
    list of its whitespace-separated tokens ([None]: no such attribute). *)
#[warnings="-register-all"]
Inductive Node :=
| NString (s : string)
| NComment (s : string)
| NTag (name : string) (class_ : option (list string)) (contents : list Node).

(* ===================================================================== *)
(** ** Library interface                                                  *)
(* ===================================================================== *)

(** What the crawler takes from outside the repository.  The laws say what
    the libraries do on the inputs the listing schema allows, and what the
    string methods do on ASCII strings; nothing is assumed about other
    inputs. *)
Class Libraries := {
  (** [BeautifulSoup(html, "lxml")]: the top-level nodes of the document, or
      the exception with which the parser gives up *)
  BeautifulSoup : string → result (list Node);
  (** [s.strip()]: white space is that of Unicode *)
  str_strip : string → string;
  str_strip_ascii s : is_ascii s = true → str_strip s = ascii_strip s;
  (** [s.isupper()]: letters and their case are those of Unicode *)
  str_isupper : string → bool;
  str_isupper_ascii s : is_ascii s = true → str_isupper s = ascii_isupper s;
  (** [str(v)], as an f-string formats [{v}] *)
  py_str : Json → string;
  py_str_JStr s : py_str (JStr s) = s;
  (** pydantic validation of a field declared [str | None] *)
  validate_opt_str : Json → result (option string);
  validate_opt_str_JNull : validate_opt_str JNull = Ok None;
  validate_opt_str_JStr s : validate_opt_str (JStr s) = Ok (Some s);
  (** pydantic validation of a field declared [int | None] *)
  validate_opt_int : Json → result (option Z);
  validate_opt_int_JNull : validate_opt_int JNull = Ok None;
  validate_opt_int_JInt z : validate_opt_int (JInt z) = Ok (Some z)
}.

(* ===================================================================== *)
(** ** Entry normalizer                                                   *)
(* ===================================================================== *)

(** Lines 77-83 of [_parse_api_server]: the chain
    [auth_required = None; if ...: elif ...: elif ...:] over [auth_info]. *)
Definition auth_required_of (auth_info : Json) : result (option string) :=
  api_key ← py_get auth_info "api_key" JNull;
  if py_truthy api_key then Ok (Some "api_key")
  else
    oauth ← py_get auth_info "oauth" JNull;
    if py_truthy oauth then Ok (Some "oauth")
    else
      none ← py_get auth_info "none" JNull;
      if py_truthy none then Ok (Some "none")
      else Ok None.

Section Normalizer.
Context `{L : Libraries}.

(** [_parse_api_server(repo)] *)
Definition _parse_api_server (repo : Json) : result ServerInfo.t :=
  slug_v ← py_get repo "slug" (JStr "");
  slug ← split_receiver slug_v;
  let parts := str_split1 "/" slug in
  publisher ← (if bool_decide (0 < length parts) then py_index parts 0
               else Ok "unknown");
  name ← (if bool_decide (1 < length parts) then py_index parts 1
          else Ok slug);
  (* Build GitHub URL from git_slug *)
  git_slug ← py_get repo "git_slug" JNull;
  let github_url :=
    if py_truthy git_slug
    then Some (GITHUB_BASE_URL +:+ "/" +:+ py_str git_slug)
    else None in
  (* Extract auth type from tags (handle None explicitly) *)
  tags_v ← py_get repo "tags" JNull;
  let tags := py_or tags_v (JObj []) in
  auth_v ← py_get tags "auth" JNull;
  let auth_info := py_or auth_v (JObj []) in
  auth_required ← auth_required_of auth_info;
  (* the arguments of ServerInfo(...), then its validation *)
  description_v ← py_get repo "description" JNull;
  description_v ← (if py_truthy description_v then Ok description_v
                   else py_get repo "subtitle" JNull);
  language_v ← py_get tags "language" JNull;
  heat_score_v ← py_get repo "heat_score" JNull;
  upvote_count_v ← py_get repo "upvote_count" JNull;
  description ← validate_opt_str description_v;
  language ← validate_opt_str language_v;
  heat_score ← validate_opt_int heat_score_v;
  upvote_count ← validate_opt_int upvote_count_v;
  Ok (ServerInfo.mk name slug publisher description github_url
        (MARKETPLACE_BASE_URL +:+ "/" +:+ slug)
        language heat_score upvote_count [] auth_required).

End Normalizer.

(* ===================================================================== *)
(** ** Markup extractor                                                   *)
(* ===================================================================== *)

(** A tag as bs4 hands it out: the element together with what follows it
    under its parent ([tag.next_siblings]). *)
Record Tag := mkTag {
  tag_name : string;
  tag_class : option (list string);
  contents : list Node;
  next_siblings : list Node
}.

(** [node] itself if it is a tag, then the tags below it, in document order;
    [after] is what follows [node] under its parent. *)
Fixpoint tags_from (node : Node) (after : list Node) : list Tag :=
  match node with
  | NTag name cls kids =>
      mkTag name cls kids after ::
      (fix below (nodes : list Node) : list Tag :=
         match nodes with
         | [] => []
         | child :: rest => tags_from child rest ++ below rest
         end) kids
  | _ => []
  end.

(** The tags among [soup.descendants], in document order. *)
Fixpoint descendant_tags (soup : list Node) : list Tag :=
  match soup with
  | [] => []
  | node :: rest => tags_from node rest ++ descendant_tags rest
  end.

(** How bs4 matches the multi-valued attribute [class] against a function:
    the function is tried on every token, then on the tokens joined by a
    space; a tag without the attribute is tried as [None]. *)
Definition class_matches (f : option string → bool) (cls : option (list string)) : bool :=
  match cls with
  | None => f None
  | Some tokens => existsb (λ c, f (Some c)) tokens || f (Some (str_join " " tokens))
  end.

(** [soup.find_all(name, class_=f)] *)
Definition find_all (name : string) (f : option string → bool) (soup : list Node) : list Tag :=
  filter (λ t, tag_name t = name ∧ class_matches f (tag_class t) = true)
         (descendant_tags soup).

(** The first tag named [name] among the nodes that follow. *)
Fixpoint first_tag (name : string) (nodes : list Node) : option Tag :=
  match nodes with
  | [] => None
  | NTag n cls kids :: rest =>
      if decide (n = name) then Some (mkTag n cls kids rest)
      else first_tag name rest
  | _ :: rest => first_tag name rest
  end.

(** [tag.find_next_sibling(name)] *)
Definition find_next_sibling (name : string) (tag : Tag) : option Tag :=
  first_tag name (next_siblings tag).

(** Common section/footer headers to exclude *)
Definition excluded_names : gset string :=
  list_to_set
    ["Tools"; "Resources"; "Prompts"; "Product"; "Company"; "Legal";
     "Documentation"; "Support"; "Contact"; "About"; "Blog"; "Pricing"].

(** [lambda c: c and "font-semibold" in c and "text-lg" in c] *)
Definition tool_card_class (c : option string) : bool :=
  match c with
  | None => false
  | Some c =>
      negb (bool_decide (c = "")) &&
      str_contains "font-semibold" c && str_contains "text-lg" c
  end.

Section Extractor.
Context `{L : Libraries}.

(** The strings that [tag.get_text(strip=True)] joins: every
    [NavigableString] below the tag, stripped, the empty ones dropped. *)
Fixpoint stripped_strings (node : Node) : list string :=
  match node with
  | NString s =>
      let s := str_strip s in
      if bool_decide (String.length s = 0) then [] else [s]
  | NComment _ => []
  | NTag _ _ kids =>
      (fix below (nodes : list Node) : list string :=
         match nodes with
         | [] => []
         | child :: rest => stripped_strings child ++ below rest
         end) kids
  end.

(** [tag.get_text(strip=True)] *)
Definition get_text_strip (tag : Tag) : string :=
  str_join "" (flat_map stripped_strings (contents tag)).

(** One turn of the loop over the tool cards: [tools] is the list built so
    far, and a [continue] leaves it as it is. *)
Definition tool_card_step (tools : list ToolInfo.t) (h4 : Tag) : list ToolInfo.t :=
  let tool_name := get_text_strip h4 in
  (* Skip if it looks like a section header, not a tool name *)
  if bool_decide (tool_name = "") || bool_decide (tool_name ∈ excluded_names)
  then tools
  (* Skip if it's all uppercase (likely a section header) *)
  else if str_isupper tool_name then tools
  else
    (* Find the description paragraph sibling *)
    let description :=
      match find_next_sibling "p" h4 with
      | Some next_p => Some (get_text_strip next_p)
      | None => None
      end in
    tools ++ [ToolInfo.mk tool_name description].

(** [_parse_tools_from_html(html)]: an exception of the parser leaves the
    function. *)
Definition _parse_tools_from_html (html : string) : result (list ToolInfo.t) :=
  soup ← BeautifulSoup html;
  let tool_cards := find_all "h4" tool_card_class soup in
  Ok (foldl tool_card_step [] tool_cards).

End Extractor.

(* ===================================================================== *)
(** ** HTTP                                                               *)
(* ===================================================================== *)

(** The class of a response object: a [requests.Response], which knows the
    reason phrase and the URL it answers, or the [_MockResponse] of
    [src/requests_mock.py]. *)
Inductive ResponseClass :=
| RequestsResponse (reason url : string)
| MockResponse.

(** A response as the crawler uses it: the status, what [response.json()]
    does, and the body text. *)
Record Response := mkResponse {
  response_class : ResponseClass;
  status_code : Z;
  json : result Json;
  text : string
}.

(** What [session.get(url, timeout=REQUEST_TIMEOUT)] does for each URL
    during one scan: it returns a response or raises. *)
Definition Session := string → result Response.

(** [response.raise_for_status()].  The method of [requests.Response] raises
    for the client errors, 400 to 499, and the server errors, 500 to 599,
    and for no other status; the method of [_MockResponse] raises for every
    status from 400 on.  The statuses below 400, 1xx and 3xx included, pass
    in both. *)
Definition raise_for_status (response : Response) : result unit :=
  let status := status_code response in
  match response_class response with
  | RequestsResponse reason url =>
      if bool_decide (400 ≤ status < 500)%Z then
        Raise (mkExn HTTPError
                 (pretty status +:+ " Client Error: " +:+ reason
                  +:+ " for url: " +:+ url))
      else if bool_decide (500 ≤ status < 600)%Z then
        Raise (mkExn HTTPError
                 (pretty status +:+ " Server Error: " +:+ reason
                  +:+ " for url: " +:+ url))
      else Ok ()
  | MockResponse =>
      if bool_decide (400 ≤ status)%Z
      then Raise (mkExn HTTPError (pretty status +:+ " Error"))
      else Ok ()
  end.

(** [_MockResponse(status_code, _json_data, text)] of [src/requests_mock.py].
    [_json_data] is any Python value; [None], which is what [JNull] stands
    for, means that there is no JSON to serve. *)
Definition _MockResponse (status : Z) (_json_data : Json) (body : string) : Response :=
  mkResponse MockResponse status
    (match _json_data with
     | JNull => Raise (mkExn ValueError "No JSON data for this response")
     | data => Ok data
     end)
    body.

(** [Mocker.get(url, json=..., text=..., status_code=...)]: [json] and [text]
    default to [None]. *)
Definition Mocker_get (registry : gmap string Response) (url : string)
    (json_ : Json) (text_ : option string) (status : Z) : gmap string Response :=
  <[url := _MockResponse status json_ (default "" text_)]> registry.

(** [_mock_get]: the session of a test run with that registry *)
Definition _mock_get (registry : gmap string Response) : Session := λ url,
  match registry !! url with
  | Some response => Ok response
  | None => Raise (mkExn RequestException ("No mock registered for " +:+ url))
  end.

(** [_fetch_api_data(session)] *)
Definition _fetch_api_data (session : Session) : result Json :=
  response ← session MARKETPLACE_API_URL;
  _ ← raise_for_status response;
  json response.

(** [_fetch_detail_page(session, url)] *)
Definition _fetch_detail_page (session : Session) (url : string) : result (option string) :=
  match (response ← session url;
         _ ← raise_for_status response;
         Ok (text response)) with
  | Ok body => Ok (Some body)
  | Raise e =>
      if is_RequestException e then Ok None (* logged as a warning *)
      else Raise e
  end.

(* ===================================================================== *)
(** ** Enrichment orchestrator                                            *)
(* ===================================================================== *)

(** The [ServerInfo] objects live in a store; the program holds references.
    A reference held by the program is always allocated, so reading through
    one is total. *)
Definition loc := nat.

Global Instance ServerInfo_inhabited : Inhabited ServerInfo.t :=
  populate (ServerInfo.mk "" "" "" None None "" None None None [] None).

(** Truth value of a [str | None] *)
Definition truthy_opt_str (o : option string) : bool :=
  match o with
  | Some s => negb (bool_decide (s = ""))
  | None => false
  end.

Definition TaskResult : Type := loc * option (list ToolInfo.t) * option string.

Section Enrichment.
Context `{L : Libraries}.

(** The closure [fetch_tools(server)], run by a worker.  Its [try] covers
    the fetch and the extractor alike; [except Exception] turns what either
    raises into an error string. *)
Definition fetch_tools (session : Session) (store : gmap loc ServerInfo.t)
    (server : loc) : TaskResult :=
  match (html ← _fetch_detail_page session
                  (ServerInfo.marketplace_url (store !!! server));
         if truthy_opt_str html then
           tools ← _parse_tools_from_html (default "" html);
           Ok (server, Some tools, None)
         else
           Ok (server, None,
               Some ("Failed to fetch "
                     +:+ ServerInfo.marketplace_url (store !!! server)))) with
  | Ok r => r
  | Raise e =>
      (server, None,
       Some ("Error processing " +:+ ServerInfo.slug (store !!! server)
             +:+ ": " +:+ exn_msg e))
  end.

(** The body of [for future in as_completed(futures)]. *)
Definition collect (state : gmap loc ServerInfo.t * list string) (r : TaskResult)
    : gmap loc ServerInfo.t * list string :=
  let '(store, errors) := state in
  let '(server, tools, error) := r in
  if truthy_opt_str error then (store, errors ++ [default "" error])
  else match tools with
       | Some tools => (alter (ServerInfo.set_tools tools) server store, errors)
       | None => (store, errors)
       end.

(** [_enrich_with_tools(session, servers, max_workers)].  One task is
    submitted per position of [servers]; [completed] is the order in which
    the tasks complete, by position.  The tasks read only fields that are
    never assigned, so each result is that of running the task on the store
    as it was at the call.  Returns the store after the loop and [errors]. *)
Definition _enrich_with_tools (session : Session) (store : gmap loc ServerInfo.t)
    (servers : list loc) (max_workers : Z) (completed : list nat)
    : result (gmap loc ServerInfo.t * list string) :=
  if bool_decide (max_workers ≤ 0)%Z
  then Raise (mkExn ValueError "max_workers must be greater than 0")
  else
    let futures := fetch_tools session store <$> servers in
    Ok (foldl collect (store, []) (omap (λ i, futures !! i) completed)).

End Enrichment.

(* ===================================================================== *)
(** ** Scan orchestrator                                                  *)
(* ===================================================================== *)

(** A byte that continues a character of more than one byte in UTF-8. *)
Definition char_continues (c : ascii) : bool :=
  let n := char_code c in ((128 <=? n) && (n <? 192))%nat.

(** The one-character strings of [s], as iterating a [str] yields them: a
    byte opens a character unless it continues one. *)
Fixpoint str_chars (s : string) : list string :=
  match s with
  | EmptyString => []
  | String c rest =>
      match str_chars rest with
      | String c' first :: others =>
          if char_continues c' then String c (String c' first) :: others
          else String c "" :: String c' first :: others
      | chars => String c "" :: chars
      end
  end.

(** [for repo in v]: a list yields its items, a mapping its keys, a string
    its characters; the other JSON values are not iterable. *)
Definition py_iter (v : Json) : result (list Json) :=
  match v with
  | JArr items => Ok items
  | JObj bindings => Ok (JStr <$> bindings.*1)
  | JStr s => Ok (JStr <$> str_chars s)
  | _ => Raise (mkExn TypeError "object is not iterable")
  end.

Section Scan.
Context `{L : Libraries}.

(** [scan_marketplace_sync(include_tools, session)].  [requests_Session] is
    the session that [requests.Session()] creates when none is passed, and
    [completed] the order in which the enrichment tasks complete. *)
Definition scan_marketplace_sync (requests_Session : Session)
    (completed : list nat)
    (include_tools : bool) (session : option Session) : result ScanResult.t :=
  let session := default requests_Session session in
  let errors : list string := [] in
  (* Fetch from API *)
  match _fetch_api_data session with
  | Raise e =>
      if is_RequestException e then
        Ok (ScanResult.mk 0 [] ["Failed to fetch marketplace API: " +:+ exn_msg e])
      else Raise e
  | Ok data =>
      repositories ← py_get data "repositories" (JArr []);
      repos ← py_iter repositories;
      entries ← mapM _parse_api_server repos;
      (* the new objects and the list [servers] of references to them *)
      let store : gmap loc ServerInfo.t := map_seq 0 entries in
      let servers : list loc := seq 0 (length entries) in
      (* Optionally enrich with tools from detail pages *)
      '(store, errors) ←
        (if include_tools && negb (bool_decide (length servers = 0))
         then
           '(store, tool_errors) ←
             _enrich_with_tools session store servers (Z.of_nat MAX_WORKERS) completed;
           Ok (store, errors ++ tool_errors)
         else Ok (store, errors));
      Ok (ScanResult.mk (Z.of_nat (length servers))
            ((λ server, store !!! server) <$> servers)
            errors)
  end.

End Scan.

(* ===================================================================== *)
(** ** A library implementation to run the model on                      *)
(* ===================================================================== *)

(** The documents of the examples below, each with the tree that the lxml
    tree builder makes of it: the builder puts the fragment under
    [<html><body>]. *)
Definition in_body (nodes : list Node) : list Node :=
  [NTag "html" None [NTag "body" None nodes]].

Definition card_class : option (list string) := Some ["text-lg"; "font-semibold"].

(** A tool card, its description right after the name. *)
Definition page_card : string :=
  "<h4 class='text-lg font-semibold'>search</h4><p> Finds things. </p>".

(** A tool card without a description, followed by a block and then by a
    paragraph of the page. *)
Definition page_card_then_block : string :=
  "<h4 class='text-lg font-semibold'>search</h4><div>beta</div><p>About us</p>".

(** Section labels only. *)
Definition page_labels : string :=
  "<h4 class='text-lg font-semibold'>Tools</h4><h4 class='text-lg font-semibold'>Product</h4>".

(** A page with two tool cards, the second inside a block and with markup
    in its name, among headings of the other kinds: one in capitals, a
    section label, one without text, and one of another class. *)
Definition page_mixed : string :=
  "<h4 class='text-lg font-semibold'> search </h4><p>Finds things.</p>" +:+
  "<h4 class='text-lg font-semibold'>TOOLS</h4>" +:+
  "<h4 class='text-lg font-semibold'>Resources</h4>" +:+
  "<h4 class='text-lg font-semibold'><!-- soon --></h4>" +:+
  "<h4 class='text-sm'>other</h4>" +:+
  "<div><h4 class='font-semibold text-lg'><b>fetch</b> page </h4></div>".

Definition example_documents : list (string * list Node) :=
  [ (page_card,
     in_body [NTag "h4" card_class [NString "search"];
              NTag "p" None [NString " Finds things. "]]);
    (page_card_then_block,
     in_body [NTag "h4" card_class [NString "search"];
              NTag "div" None [NString "beta"];
              NTag "p" None [NString "About us"]]);
    (page_labels,
     in_body [NTag "h4" card_class [NString "Tools"];
              NTag "h4" card_class [NString "Product"]]);
    (page_mixed,
     in_body [NTag "h4" card_class [NString " search "];
              NTag "p" None [NString "Finds things."];
              NTag "h4" card_class [NString "TOOLS"];
              NTag "h4" card_class [NString "Resources"];
              NTag "h4" card_class [NComment " soon "];
              NTag "h4" (Some ["text-sm"]) [NString "other"];
              NTag "div" None
                [NTag "h4" (Some ["font-semibold"; "text-lg"])
                   [NTag "b" None [NString "fetch"]; NString " page "]]]) ].

Fixpoint lookup_document (html : string) (docs : list (string * list Node)) : list Node :=
  match docs with
  | [] => []
  | (text, tree) :: rest => if decide (text = html) then tree else lookup_document html rest
  end.

(** The character U+D800, a surrogate, and a tool card whose name holds
    it. *)
Definition surrogate_D800 : string :=
  String (ascii_of_nat 237) (String (ascii_of_nat 160) (String (ascii_of_nat 128) "")).

Definition page_surrogate : string :=
  "<h4 class='text-lg font-semibold'>search" +:+ surrogate_D800 +:+ "</h4>".

(** The libraries of the examples.  The parser is given the document in
    UTF-8, as the feed parser of lxml is, which encodes a [str] chunk by
    chunk: a document that holds a surrogate cannot be encoded, and the
    [UnicodeEncodeError], a [ValueError], leaves [BeautifulSoup].  The other
    documents and the records of the examples are ASCII, where [str.strip]
    and [str.isupper] are the functions written out above. *)
Definition example_libraries : Libraries := {|
  BeautifulSoup html :=
    if has_surrogate html
    then Raise (mkExn ValueError
                  "'utf-8' codec can't encode character: surrogates not allowed")
    else Ok (lookup_document html example_documents);
  str_strip := ascii_strip;
  str_strip_ascii _ _ := eq_refl;
  str_isupper := ascii_isupper;
  str_isupper_ascii _ _ := eq_refl;
  py_str v := match v with JStr s => s | JInt z => pretty z | _ => "" end;
  py_str_JStr _ := eq_refl;
  validate_opt_str v :=
    match v with
    | JNull => Ok None
    | JStr s => Ok (Some s)
    | _ => Raise (mkExn ValidationError "Input should be a valid string")
    end;
  validate_opt_str_JNull := eq_refl;
  validate_opt_str_JStr _ := eq_refl;
  validate_opt_int v :=
    match v with
    | JNull => Ok None
    | JInt z => Ok (Some z)
    | _ => Raise (mkExn ValidationError "Input should be a valid integer")
    end;
  validate_opt_int_JNull := eq_refl;
  validate_opt_int_JInt _ := eq_refl
|}.

(* ===================================================================== *)
(** ** Vocabulary of the specification                                    *)
(* ===================================================================== *)

(** The value of the field [k] of a raw record, if the record is a mapping
    that has the field. *)
Definition field (v : Json) (k : string) : option Json :=
  match v with
  | JObj bindings => assoc k bindings
  | _ => None
  end.



(** The precedence as the specification words it: api_key over oauth over
    none, and no mode at all when no flag is set. *)
Definition auth_mode_by_precedence (api_key oauth none : bool) : option string :=
  if api_key then Some "api_key"
  else if oauth then Some "oauth"
  else if none then Some "none"
  else None.

(** A field that may be missing: absent, [null], or of the given type. *)
Definition optional (of_type : Json → bool) (o : option Json) : bool :=
  match o with
  | None | Some JNull => true
  | Some v => of_type v
  end.

Definition is_str (v : Json) : bool := match v with JStr _ => true | _ => false end.
Definition is_int (v : Json) : bool := match v with JInt _ => true | _ => false end.
Definition is_mapping (v : Json) : bool := match v with JObj _ => true | _ => false end.

(** The [tags] mapping of the listing schema: [language] a string, [auth] a
    mapping of flags, both optional. *)
Definition tags_of_schema (v : Json) : bool :=
  is_mapping v &&
  optional is_str (field v "language") && optional is_mapping (field v "auth").

(** A raw record whose fields, where it has them, are of the types of the
    listing schema.  Nothing is required to be present, [slug] included. *)
Definition record_of_schema (repo : Json) : bool :=
  is_mapping repo &&
  match field repo "slug" with None => true | Some v => is_str v end &&
  optional is_str (field repo "description") &&
  optional is_str (field repo "subtitle") &&
  optional is_int (field repo "heat_score") &&
  optional is_int (field repo "upvote_count") &&
  optional tags_of_schema (field repo "tags").

(** The class attribute of a tag as it stands in the markup. *)
Definition class_text (t : Tag) : string :=
  match tag_class t with
  | Some tokens => str_join " " tokens
  | None => ""
  end.

(** The tag carries the class marker: its class attribute contains it. *)
Definition carries (marker : string) (t : Tag) : Prop :=
  str_contains marker (class_text t) = true.

(** A heading with the two markers of a capability name. *)
Definition capability_heading (t : Tag) : Prop :=
  tag_name t = "h4" ∧ carries "text-lg" t ∧ carries "font-semibold" t.

Global Instance capability_heading_dec t : Decision (capability_heading t).
Proof. unfold capability_heading, carries. apply _. Defined.

(** The capability headings of a document, in document order. *)
Definition capability_headings (soup : list Node) : list Tag :=
  filter capability_heading (descendant_tags soup).

(** The element at a position of the document: [i :: rest] leads to the
    [i]-th of the nodes, which is to be a tag, and from there on through its
    contents.  The element knows the siblings that follow it. *)
Fixpoint tag_at (nodes : list Node) (path : list nat) : option Tag :=
  match path with
  | [] => None
  | i :: rest =>
      match nodes !! i with
      | Some (NTag name cls kids) =>
          match rest with
          | [] => Some (mkTag name cls kids (drop (S i) nodes))
          | _ => tag_at kids rest
          end
      | _ => None
      end
  end.

(** Document order on positions: an element comes before what it contains,
    and all of that before its next sibling. *)
Fixpoint document_order (p q : list nat) : Prop :=
  match p, q with
  | _, [] => False
  | [], _ :: _ => True
  | i :: p', j :: q' => (i < j)%nat ∨ (i = j ∧ document_order p' q')
  end.

Definition is_paragraph (n : Node) : Prop :=
  match n with
  | NTag name _ _ => name = "p"
  | _ => False
  end.

Definition is_element (n : Node) : Prop :=
  match n with
  | NTag _ _ _ => True
  | _ => False
  end.

(** [p] is the first paragraph among the siblings that follow [t]. *)
Definition first_paragraph_after (t p : Tag) : Prop :=
  ∃ before cls kids after,
    next_siblings t = before ++ NTag "p" cls kids :: after ∧
    Forall (λ n, ¬ is_paragraph n) before ∧
    p = mkTag "p" cls kids after.

(** [p] is the element right after [t], and it is a paragraph: only strings
    stand between the two. *)
Definition paragraph_right_after (t p : Tag) : Prop :=
  ∃ before cls kids after,
    next_siblings t = before ++ NTag "p" cls kids :: after ∧
    Forall (λ n, ¬ is_element n) before ∧
    p = mkTag "p" cls kids after.

Section ExtractorVocabulary.
Context `{L : Libraries}.

(** A candidate name that is kept: not empty, not an excluded label, not
    entirely upper-case. *)
Definition kept_name (name : string) : Prop :=
  name ≠ "" ∧ (name ∉ excluded_names) ∧ str_isupper name = false.

Global Instance kept_name_dec name : Decision (kept_name name).
Proof. unfold kept_name. apply _. Defined.

(** A heading that gives a descriptor: a capability heading whose trimmed
    text is kept. *)
Definition accepted (t : Tag) : Prop :=
  capability_heading t ∧ kept_name (get_text_strip t).

(** The headings that give a descriptor. *)
Definition accepted_headings (soup : list Node) : list Tag :=
  filter (λ t, kept_name (get_text_strip t)) (capability_headings soup).

(** The description that the specification words: the text of the
    paragraph right after the heading, none when the element right after the
    heading is no paragraph. *)
Definition described_by_adjacent_paragraph (t : Tag) (d : ToolInfo.t) : Prop :=
  (∀ p, paragraph_right_after t p →
        ToolInfo.description d = Some (get_text_strip p)) ∧
  (¬ (∃ p, paragraph_right_after t p) → ToolInfo.description d = None).

(** The description that the code gives: the text of the first paragraph
    among the following siblings, none when there is no such paragraph. *)
Definition described_by_next_paragraph (t : Tag) (d : ToolInfo.t) : Prop :=
  (∀ p, first_paragraph_after t p →
        ToolInfo.description d = Some (get_text_strip p)) ∧
  (Forall (λ n, ¬ is_paragraph n) (next_siblings t) →
   ToolInfo.description d = None).

(** There is an accepted heading at the position [p] of the document. *)
Definition accepted_at (soup : list Node) (p : list nat) : Prop :=
  ∃ t, tag_at soup p = Some t ∧ accepted t.

Global Instance accepted_at_dec soup p : Decision (accepted_at soup p).
Proof.
  unfold accepted_at. destruct (tag_at soup p) as [t|].
  - destruct (decide (capability_heading t ∧ kept_name (get_text_strip t)))
      as [Ht|Ht]; [left; by exists t|right; by intros (? & [= <-] & ?)].
  - right. by intros (t & ? & _).
Defined.

(** The descriptor that an accepted heading gives. *)
Definition descriptor_of (t : Tag) : ToolInfo.t :=
  ToolInfo.mk (get_text_strip t) (get_text_strip <$> find_next_sibling "p" t).

(** [tools] holds one descriptor for each accepted heading of the document,
    in document order: the positions of the accepted headings, sorted, stand
    one for one against the descriptors; each descriptor has the trimmed
    text of its heading for name, and its description is as [described]
    says. *)
Definition descriptors_of_accepted_headings
    (described : Tag → ToolInfo.t → Prop)
    (soup : list Node) (tools : list ToolInfo.t) : Prop :=
  ∃ paths : list (list nat),
    StronglySorted document_order paths ∧
    (∀ p, p ∈ paths ↔ accepted_at soup p) ∧
    Forall2 (λ p d, ∃ t, tag_at soup p = Some t ∧
                         ToolInfo.name d = get_text_strip t ∧ described t d)
            paths tools.

End ExtractorVocabulary.

(** For the proofs: the positions of the tags below a node, the node itself
    at [[]], and of the tags of a list of siblings counted from [j], in
    document order. *)
Fixpoint paths_from (node : Node) : list (list nat) :=
  match node with
  | NTag _ _ kids =>
      [] ::
      (fix below (j : nat) (nodes : list Node) : list (list nat) :=
         match nodes with
         | [] => []
         | child :: rest => (cons j <$> paths_from child) ++ below (S j) rest
         end) 0 kids
  | _ => []
  end.

Fixpoint tag_paths (j : nat) (nodes : list Node) : list (list nat) :=
  match nodes with
  | [] => []
  | node :: rest => (cons j <$> paths_from node) ++ tag_paths (S j) rest
  end.

(** The body that a detail fetch of [url] gives when it succeeds: the
    request returns and the status is below the error statuses. *)
Definition detail_body (session : Session) (url : string) : option string :=
  match session url with
  | Ok response =>
      if bool_decide (status_code response < 400)%Z then Some (text response)
      else None
  | Raise _ => None
  end.

(** The detail fetch of [url] fails: the request raises, or it returns with
    an error status, 400 to 599. *)
Definition detail_fetch_fails (session : Session) (url : string) : Prop :=
  (∃ e, session url = Raise e) ∨
  (∃ response, session url = Ok response ∧ (400 ≤ status_code response < 600)%Z).

(** The entries that the caller sees through its list of references. *)
Definition entries_of (store : gmap loc ServerInfo.t) (servers : list loc)
    : list ServerInfo.t :=
  (λ server, store !!! server) <$> servers.

(** Every task of a run completes, once, in some order. *)
Definition completion_order (completed : list nat) (servers : list loc) : Prop :=
  completed ≡ₚ seq 0 (length servers).

(** The string that the loop of the orchestrator appends for a task result,
    if it appends one. *)
Definition task_error (r : TaskResult) : option string :=
  if truthy_opt_str r.2 then r.2 else None.

(** The error string names the entry: its detail URL or its slug. *)
Definition references (err : string) (entry : ServerInfo.t) : Prop :=
  str_contains (ServerInfo.marketplace_url entry) err = true ∨
  str_contains (ServerInfo.slug entry) err = true.

(** The request for the listing meets a transport error: [session.get]
    raises a [RequestException]. *)
Definition transport_error (session : Session) : Prop :=
  ∃ e, session MARKETPLACE_API_URL = Raise e ∧ is_RequestException e = true.

(** The request for the listing returns with a status that satisfies [P]. *)
Definition listing_status (session : Session) (P : Z → Prop) : Prop :=
  ∃ response, session MARKETPLACE_API_URL = Ok response ∧ P (status_code response).

(** A scan that reports the failure of the bulk fetch: no entries, and one
    error string that contains "Failed to fetch". *)
Definition reports_bulk_failure (r : result ScanResult.t) : Prop :=
  ∃ err, r = Ok (ScanResult.mk 0 [] [err]) ∧
         str_contains "Failed to fetch" err = true.

(** A field that counts for nothing in a test like [if git_slug] or
    [description or subtitle]: missing, [null], or the empty string. *)
Definition missing_or_empty (o : option Json) : Prop :=
  o = None ∨ o = Some JNull ∨ o = Some (JStr "").

(** Two entries that differ in their [tools] at most. *)
Definition same_but_tools (e e' : ServerInfo.t) : Prop :=
  ServerInfo.set_tools [] e = ServerInfo.set_tools [] e'.

(** What the loop of the orchestrator does to the entry of a task result. *)
Definition apply_result (r : TaskResult) (e : ServerInfo.t) : ServerInfo.t :=
  if truthy_opt_str r.2 then e
  else match r.1.2 with
       | Some tools => ServerInfo.set_tools tools e
       | None => e
       end.

(** The request for the listing returns with no error status, and its
    body decodes to [data]. *)
Definition serves_listing (session : Session) (data : Json) : Prop :=
  ∃ response,
    session MARKETPLACE_API_URL = Ok response ∧
    (status_code response < 400)%Z ∧
    json response = Ok data.

Section EnrichmentVocabulary.
Context `{L : Libraries}.

(** The tools that the detail page at [url] yields: the fetcher returns a
    body, the body is not empty, and the extractor returns them for it. *)
Definition tools_found (session : Session) (url : string) : option (list ToolInfo.t) :=
  match _fetch_detail_page session url with
  | Ok (Some body) =>
      if bool_decide (body = "") then None
      else match _parse_tools_from_html body with
           | Ok tools => Some tools
           | Raise _ => None
           end
  | _ => None
  end.

(** The outcome of a run in which the entry at position [i] alone fails: the
    run returns; the caller's sequence has its length and every entry its
    place; the entry at [i] is as it was; every other entry has the result
    of the extractor on its body for tools, and is otherwise as it was; and
    there is one error string, which names the failing entry. *)
Definition isolates_failure (session : Session) (store : gmap loc ServerInfo.t)
    (servers : list loc) (i : nat) (failing : loc)
    (outcome : result (gmap loc ServerInfo.t * list string)) : Prop :=
  ∃ store' errors,
    outcome = Ok (store', errors) ∧
    length (entries_of store' servers) = length servers ∧
    entries_of store' servers !! i = entries_of store servers !! i ∧
    (∀ j entry, j ≠ i → entries_of store servers !! j = Some entry →
       ∃ body tools entry',
         detail_body session (ServerInfo.marketplace_url entry) = Some body ∧
         _parse_tools_from_html body = Ok tools ∧
         entries_of store' servers !! j = Some entry' ∧
         ServerInfo.tools entry' = tools ∧
         same_but_tools entry entry') ∧
    ∃ err, errors = [err] ∧ references err (store !!! failing).

End EnrichmentVocabulary.

(* ===================================================================== *)
(** ** Data of the examples                                               *)
(* ===================================================================== *)

Definition auth_flags (api_key oauth none : bool) : Json :=
  JObj [("none", JBool none); ("oauth", JBool oauth); ("api_key", JBool api_key)].

(** A record whose three flags are all set. *)
Definition record_all_flags : Json :=
  JObj [("slug", JStr "testpub/test-server");
        ("git_slug", JStr "testpub/test-server-repo");
        ("heat_score", JInt 85);
        ("tags", JObj [("auth", auth_flags true true true);
                       ("language", JStr "python")])].

Definition entry_all_flags : ServerInfo.t :=
  ServerInfo.mk "test-server" "testpub/test-server" "testpub" None
    (Some "https://github.com/testpub/test-server-repo")
    "https://www.dedaluslabs.ai/marketplace/testpub/test-server"
    (Some "python") (Some 85%Z) None [] (Some "api_key").

(** A record with a slug that has no separator, and one with no slug. *)
Definition record_solo : Json := JObj [("slug", JStr "solo")].

Definition entry_solo : ServerInfo.t :=
  ServerInfo.mk "solo" "solo" "solo" None None
    "https://www.dedaluslabs.ai/marketplace/solo" None None None [] None.

Definition record_empty : Json := JObj [].

Definition entry_empty : ServerInfo.t :=
  ServerInfo.mk "" "" "" None None
    "https://www.dedaluslabs.ai/marketplace/" None None None [] None.

(** A second record, and the listing of the two. *)
Definition record_none_flag : Json :=
  JObj [("slug", JStr "anotherpub/another-server");
        ("description", JNull);
        ("subtitle", JStr "Another server subtitle");
        ("tags", JObj [("auth", auth_flags false false true);
                       ("language", JStr "typescript")])].

Definition entry_none_flag : ServerInfo.t :=
  ServerInfo.mk "another-server" "anotherpub/another-server" "anotherpub"
    (Some "Another server subtitle") None
    "https://www.dedaluslabs.ai/marketplace/anotherpub/another-server"
    (Some "typescript") None None [] (Some "none").

Definition example_listing : Json :=
  JObj [("repositories", JArr [record_all_flags; record_none_flag])].

(** A mocked network: the listing, the detail page of the first entry, and
    a 404 for the detail page of the second. *)
Definition example_registry : gmap string Response :=
  let m := Mocker_get ∅ MARKETPLACE_API_URL example_listing None 200 in
  let m := Mocker_get m (ServerInfo.marketplace_url entry_all_flags)
             JNull (Some page_card) 200 in
  Mocker_get m (ServerInfo.marketplace_url entry_none_flag) JNull None 404.

Definition example_session : Session := _mock_get example_registry.

(** The same, the second detail page now served with an empty body. *)
Definition example_session_empty_body : Session :=
  _mock_get (Mocker_get example_registry
               (ServerInfo.marketplace_url entry_none_flag) JNull None 200).

(** The same, the first detail page now the card whose name holds a
    surrogate. *)
Definition example_session_surrogate : Session :=
  _mock_get (Mocker_get example_registry
               (ServerInfo.marketplace_url entry_all_flags) JNull
               (Some page_surrogate) 200).

(** The two entries as objects, and the list of the references to them. *)
Definition example_store : gmap loc ServerInfo.t :=
  map_seq 0 [entry_all_flags; entry_none_flag].

Definition example_servers : list loc := [0; 1].

(** The listing served with the status 302. *)
Definition example_session_302 : Session :=
  _mock_get (Mocker_get ∅ MARKETPLACE_API_URL example_listing None 302).

(** A server that answers every request of the [requests] library with the
    status 503. *)
Definition example_session_503 : Session := λ url,
  Ok (mkResponse (RequestsResponse "Service Unavailable" url) 503
        (Raise (mkExn RequestException "Expecting value: line 1 column 1 (char 0)"))
        "").

(** No listing at all: every request fails in transport. *)
Definition example_session_down : Session := _mock_get ∅.

(** A record whose slug is [null], and one whose [tags] is a string. *)
Definition record_null_slug : Json := JObj [("slug", JNull)].

Definition record_tags_string : Json :=
  JObj [("slug", JStr "pub/srv"); ("tags", JStr "python")].

(** The store and the errors after a run over the two entries on the mocked
    network. *)
Definition example_enriched_store : gmap loc ServerInfo.t :=
  map_seq 0
    [ServerInfo.set_tools [ToolInfo.mk "search" (Some "Finds things.")] entry_all_flags;
     entry_none_flag].

Definition example_run_errors : list string :=
  ["Failed to fetch https://www.dedaluslabs.ai/marketplace/anotherpub/another-server"].

(** A listing one of whose records has a [null] slug, and a network that
    serves it; a network that answers 200 with no JSON; one that serves a
    mapping without the key [repositories]. *)
Definition example_session_bad_record : Session :=
  _mock_get (Mocker_get ∅ MARKETPLACE_API_URL
               (JObj [("repositories", JArr [record_all_flags; record_null_slug])])
               None 200).

Definition example_session_no_json : Session :=
  _mock_get (Mocker_get ∅ MARKETPLACE_API_URL JNull (Some "<html></html>") 200).

Definition example_session_no_key : Session :=
  _mock_get (Mocker_get ∅ MARKETPLACE_API_URL (JObj [("count", JInt 0)]) None 200).

(* ===================================================================== *)
(** * Properties                                                          *)
(* ===================================================================== *)

(** ** Results *)

Lemma bind_Ok {A B} (m : result A) (f : A → result B) (b : B) :
  m ≫= f = Ok b → ∃ a, m = Ok a ∧ f a = Ok b.
Proof. destruct m as [a|e]; simpl; [eauto | discriminate]. Qed.

Lemma py_get_Ok d k fallback v :
  py_get d k fallback = Ok v →
  ∃ bindings, d = JObj bindings ∧ v = default fallback (assoc k bindings).
Proof. destruct d; simpl; try discriminate. intros [= <-]. eauto. Qed.

Lemma py_get_JObj bindings k fallback :
  py_get (JObj bindings) k fallback = Ok (default fallback (assoc k bindings)).
Proof. reflexivity. Qed.


(** ** Splitting a slug *)

Lemma partition_first_Some sep s before after :
  partition_first sep s = Some (before, after) →
  s = before +:+ String sep after ∧ str_has sep before = false.
Proof.
  revert before. induction s as [|c rest IH]; intros before; simpl; [discriminate|].
  destruct (decide (c = sep)) as [->|Hne].
  - intros [= <- <-]. split; reflexivity.
  - destruct (partition_first sep rest) as [[b a]|] eqn:Hrest; [|discriminate].
    intros [= <- <-]. destruct (IH b eq_refl) as [-> Hb]. split; [reflexivity|].
    simpl. rewrite Hb. by rewrite bool_decide_eq_false_2.
Qed.

Lemma partition_first_None sep s :
  partition_first sep s = None ↔ str_has sep s = false.
Proof.
  induction s as [|c rest IH]; simpl; [done|].
  destruct (decide (c = sep)) as [->|Hne].
  - rewrite bool_decide_eq_true_2 by done. simpl. split; discriminate.
  - rewrite bool_decide_eq_false_2 by done. simpl. rewrite <- IH.
    destruct (partition_first sep rest) as [[b a]|]; split; done.
Qed.

Lemma str_split1_without sep s :
  str_has sep s = false → str_split1 sep s = [s].
Proof. intros H. unfold str_split1. by apply partition_first_None in H as ->. Qed.

Lemma str_split1_with sep s :
  str_has sep s = true →
  ∃ before after,
    str_split1 sep s = [before; after] ∧
    s = before +:+ String sep after ∧ str_has sep before = false.
Proof.
  intros H. unfold str_split1.
  destruct (partition_first sep s) as [[b a]|] eqn:Hp.
  - apply partition_first_Some in Hp as [-> Hb]. eauto.
  - apply partition_first_None in Hp. congruence.
Qed.

(** ** Entry normalizer *)

Section NormalizerFacts.
Context `{L : Libraries}.

(** What a returned entry tells about the record it comes from. *)
Lemma parse_api_server_Ok repo e :
  _parse_api_server repo = Ok e →
  ∃ bindings slug tags auth_info,
    repo = JObj bindings ∧
    default (JStr "") (assoc "slug" bindings) = JStr slug ∧
    py_or (default JNull (assoc "tags" bindings)) (JObj []) = JObj tags ∧
    py_or (default JNull (assoc "auth" tags)) (JObj []) = JObj auth_info ∧
    auth_required_of (JObj auth_info) = Ok (ServerInfo.auth_required e) ∧
    ServerInfo.slug e = slug ∧
    py_index (str_split1 "/" slug) 0 = Ok (ServerInfo.publisher e) ∧
    ServerInfo.name e = default slug (str_split1 "/" slug !! 1) ∧
    ServerInfo.marketplace_url e = MARKETPLACE_BASE_URL +:+ "/" +:+ slug ∧
    ServerInfo.tools e = [].
Proof.
  unfold _parse_api_server. intros H.
  apply bind_Ok in H as (slug_v & Hslug & H).
  apply py_get_Ok in Hslug as (bindings & -> & ->).
  apply bind_Ok in H as (slug & Hrecv & H).
  destruct (default _ _) as [| | | |slug'| |] eqn:Hslug; try discriminate.
  injection Hrecv as ->.
  assert (Hlen : 0 < length (str_split1 "/" slug)).
  { unfold str_split1. destruct (partition_first _ _) as [[??]|]; simpl; lia. }
  rewrite (bool_decide_eq_true_2 _ Hlen) in H.
  apply bind_Ok in H as (publisher & Hpublisher & H).
  apply bind_Ok in H as (name & Hname & H).
  apply bind_Ok in H as (git_slug & _ & H).
  apply bind_Ok in H as (tags_v & Htags_v & H).
  apply py_get_Ok in Htags_v as (? & [= <-] & ->).
  apply bind_Ok in H as (auth_v & Hauth_v & H).
  apply py_get_Ok in Hauth_v as (tags & Htags & ->).
  apply bind_Ok in H as (auth_required & Hauth_required & H).
  destruct (py_or (default JNull (assoc "auth" tags)) _) as [| | | | | |auth_info]
    eqn:Hauth; try discriminate.
  do 9 (apply bind_Ok in H as (? & _ & H)). injection H as <-. simpl.
  exists bindings, slug, tags, auth_info. repeat split; try done.
  unfold str_split1 in *.
  destruct (partition_first _ _) as [[??]|]; cbv in Hname; simpl; congruence.
Qed.

(** The defaults [... or {}] read like a lookup along the path. *)
Lemma py_or_empty_mapping v bindings k :
  py_or v (JObj []) = JObj bindings → field v k = assoc k bindings.
Proof.
  unfold py_or. destruct (py_truthy v) eqn:Hv.
  - by intros ->.
  - intros [= <-]. destruct v as [| | | | | |[|??]]; done.
Qed.


Lemma auth_required_of_mapping auth_info :
  auth_required_of (JObj auth_info) =
  Ok (auth_mode_by_precedence
        (py_truthy (default JNull (assoc "api_key" auth_info)))
        (py_truthy (default JNull (assoc "oauth" auth_info)))
        (py_truthy (default JNull (assoc "none" auth_info)))).
Proof.
  unfold auth_required_of, auth_mode_by_precedence. simpl.
  by repeat destruct (py_truthy _).
Qed.

(** A separator-free slug is taken whole for the publisher as for the name:
    [split] always yields a first part, so the test [len(parts) > 0] never
    sends the publisher to its fallback. *)
Lemma parse_api_server_without_separator repo slug e :
  field repo "slug" = Some (JStr slug) →
  str_has "/" slug = false →
  _parse_api_server repo = Ok e →
  ServerInfo.publisher e = slug ∧ ServerInfo.name e = slug.
Proof.
  intros Hfield Hsep He.
  apply parse_api_server_Ok in He
    as (bindings & slug' & ? & ? & -> & Hslug & _ & _ & _ & _ & Hpub & Hname & _).
  simpl in Hfield. rewrite Hfield in Hslug. injection Hslug as <-.
  rewrite str_split1_without in Hpub, Hname by done.
  injection Hpub as <-. by rewrite Hname.
Qed.

End NormalizerFacts.

(** ** The claims on the entry normalizer *)

Section NormalizerClaims.
Context `{L : Libraries}.


(** C8.  For a raw record whose slug has a separator, the entry that the
    normalizer returns has [publisher + "/" + name == slug], and its
    publisher is what stands before the first separator: it has none. *)
Theorem publisher_and_name_rebuild_slug (repo : Json) (slug : string) (e : ServerInfo.t) :
  field repo "slug" = Some (JStr slug) →
  str_has "/" slug = true →
  _parse_api_server repo = Ok e →
  ServerInfo.publisher e +:+ "/" +:+ ServerInfo.name e = slug ∧
  ServerInfo.slug e = slug ∧
  str_has "/" (ServerInfo.publisher e) = false.
Proof.
  intros Hfield Hsep He.
  apply parse_api_server_Ok in He
    as (bindings & slug' & ? & ? & -> & Hslug & _ & _ & _ & Hs & Hpub & Hname & _).
  simpl in Hfield. rewrite Hfield in Hslug. injection Hslug as <-.
  destruct (str_split1_with "/" slug Hsep) as (before & after & Hparts & Heq & Hnone).
  rewrite Hparts in Hpub, Hname. injection Hpub as <-. simpl in Hname.
  rewrite Hname. by rewrite Hs, Heq at 1.
Qed.

Lemma validate_opt_str_optional v :
  optional is_str (Some v) = true → ∃ r, validate_opt_str v = Ok r.
Proof.
  destruct v; try discriminate; intros _.
  - rewrite validate_opt_str_JNull. eauto.
  - rewrite validate_opt_str_JStr. eauto.
Qed.

Lemma validate_opt_int_optional v :
  optional is_int (Some v) = true → ∃ r, validate_opt_int v = Ok r.
Proof.
  destruct v; try discriminate; intros _.
  - rewrite validate_opt_int_JNull. eauto.
  - rewrite validate_opt_int_JInt. eauto.
Qed.

Lemma optional_default of_type o :
  optional of_type o = true → optional of_type (Some (default JNull o)) = true.
Proof. by destruct o. Qed.

(** C5, amended.  The normalizer returns an entry for every raw record whose
    fields, where present, have the types of the listing schema, whichever
    of them are missing; the slug is no exception: for a record without one
    the normalizer returns an entry as well, with the empty slug. *)
Theorem normalizer_accepts_missing_fields (repo : Json) :
  record_of_schema repo = true →
  ∃ e, _parse_api_server repo = Ok e ∧
       (field repo "slug" = None → ServerInfo.slug e = "").
Proof.
  unfold record_of_schema. rewrite !andb_true_iff.
  intros ((((((Hmap & Hslug) & Hdesc) & Hsub) & Hheat) & Hup) & Htags).
  destruct repo as [| | | | | |bindings]; try discriminate. simpl in *.
  (* the slug is a string, the empty one when the field is missing *)
  assert (∃ slug, default (JStr "") (assoc "slug" bindings) = JStr slug ∧
                  (assoc "slug" bindings = None → slug = ""))
    as (slug & Hslug_v & Hslug_empty).
  { destruct (assoc "slug" bindings) as [[]|]; try discriminate; simpl; eauto.
    exists s. split; [done|discriminate]. }
  (* the tags and the auth information are mappings *)
  assert (∃ tags, py_or (default JNull (assoc "tags" bindings)) (JObj []) = JObj tags ∧
                  optional is_str (assoc "language" tags) = true ∧
                  optional is_mapping (assoc "auth" tags) = true)
    as (tags & Htags_v & Hlang & Hauth).
  { destruct (assoc "tags" bindings) as [[| | | | | |tags]|];
      try discriminate; simpl; try (by exists []).
    unfold tags_of_schema in Htags. simpl in Htags.
    apply andb_true_iff in Htags as [? ?].
    unfold py_or. destruct (py_truthy _) eqn:Hnonempty; [by exists tags|].
    destruct tags; [by exists []|discriminate]. }
  assert (∃ auth_info,
            py_or (default JNull (assoc "auth" tags)) (JObj []) = JObj auth_info)
    as (auth_info & Hauth_v).
  { destruct (assoc "auth" tags) as [[| | | | | |auth]|];
      try discriminate; simpl; try (by exists []).
    unfold py_or. destruct (py_truthy _); eauto. }
  (* the fields that pydantic validates *)
  assert (∃ v, (if py_truthy (default JNull (assoc "description" bindings))
                then Ok (default JNull (assoc "description" bindings))
                else py_get (JObj bindings) "subtitle" JNull) = Ok v ∧
               optional is_str (Some v) = true) as (description_v & Hdesc_v & Hdesc_t).
  { destruct (py_truthy _); eauto using optional_default. }
  destruct (validate_opt_str_optional _ Hdesc_t) as (description & Hdescription).
  destruct (validate_opt_str_optional _ (optional_default _ _ Hlang))
    as (language & Hlanguage).
  destruct (validate_opt_int_optional _ (optional_default _ _ Hheat))
    as (heat_score & Hheat_score).
  destruct (validate_opt_int_optional _ (optional_default _ _ Hup))
    as (upvote_count & Hupvote_count).
  assert (Hlen : 0 < length (str_split1 "/" slug)).
  { unfold str_split1. destruct (partition_first _ _) as [[??]|]; simpl; lia. }
  assert (∃ publisher, py_index (str_split1 "/" slug) 0 = Ok publisher)
    as (publisher & Hpublisher).
  { unfold py_index.
    destruct (str_split1 "/" slug !! 0) as [publisher|] eqn:Hpublisher; [eauto|].
    apply lookup_ge_None in Hpublisher. lia. }
  unfold _parse_api_server. rewrite py_get_JObj. simpl.
  rewrite Hslug_v. simpl. rewrite (bool_decide_eq_true_2 _ Hlen).
  rewrite Hpublisher. simpl.
  assert (∃ name, (if bool_decide (1 < length (str_split1 "/" slug))
                   then py_index (str_split1 "/" slug) 1 else Ok slug) = Ok name)
    as (name & ->).
  { case_bool_decide as Hlen1; [|eauto].
    unfold py_index. destruct (str_split1 "/" slug !! 1) as [name|] eqn:Hname; [eauto|].
    apply lookup_ge_None in Hname. lia. }
  simpl. rewrite Htags_v. simpl. rewrite Hauth_v, auth_required_of_mapping. simpl.
  simpl in Hdesc_v. rewrite Hdesc_v. simpl. rewrite Hdescription, Hlanguage, Hheat_score, Hupvote_count.
  simpl. eexists. split; [done|]. simpl. intros Hnone.
  by specialize (Hslug_empty Hnone) as ->.
Qed.

(** C4.  The record [{"slug": "solo"}], whose slug has no separator, gets
    the publisher "solo", not "unknown"; its name is the whole slug. *)
Theorem separator_free_slug_publisher :
  _parse_api_server record_solo = Ok entry_solo ∧
  ServerInfo.publisher entry_solo = "solo" ∧
  ServerInfo.name entry_solo = "solo".
Proof.
  split; [|done].
  unfold _parse_api_server, record_solo, entry_solo. simpl.
  by rewrite validate_opt_str_JNull, validate_opt_int_JNull.
Qed.

End NormalizerClaims.

Lemma parse_record_empty `{L : Libraries} :
  _parse_api_server record_empty = Ok entry_empty.
Proof.
  unfold _parse_api_server, record_empty, entry_empty. simpl.
  by rewrite validate_opt_str_JNull, validate_opt_int_JNull.
Qed.


Lemma publisher_and_name_rebuild_slug_witness :
  ServerInfo.publisher entry_all_flags +:+ "/" +:+ ServerInfo.name entry_all_flags
    = "testpub/test-server" ∧
  ServerInfo.slug entry_all_flags = "testpub/test-server" ∧
  str_has "/" (ServerInfo.publisher entry_all_flags) = false.
Proof.
  apply (publisher_and_name_rebuild_slug (L:=example_libraries) record_all_flags);
    reflexivity.
Defined.

Lemma normalizer_accepts_missing_fields_witness :
  ∃ e, _parse_api_server (L:=example_libraries) record_empty = Ok e ∧
       (field record_empty "slug" = None → ServerInfo.slug e = "").
Proof.
  apply (normalizer_accepts_missing_fields (L:=example_libraries) record_empty).
  reflexivity.
Defined.

(** C5 as stated fails at the record [{}]: it has no slug, and whatever the
    libraries do elsewhere the normalizer returns an entry for it. *)
Lemma missing_slug_is_not_an_error :
  ¬ ∃ L : Libraries,
      (∃ x, _parse_api_server (L:=L) record_empty = Raise x) ↔
      field record_empty "slug" = None.
Proof.
  intros (L & _ & Hfails). destruct (Hfails eq_refl) as [x Hx].
  rewrite parse_record_empty in Hx. discriminate.
Qed.

(** ** Markup extractor *)

Lemma append_cons c a b : String c a +:+ b = String c (a +:+ b).
Proof. reflexivity. Qed.

Lemma prefix_append m a b :
  String.prefix m a = true → String.prefix m (a +:+ b) = true.
Proof.
  revert a. induction m as [|c m IH]; intros a.
  - intros _. by destruct (a +:+ b).
  - destruct a as [|c' a]; [discriminate|]. rewrite append_cons. simpl.
    destruct (ascii_dec c c'); [apply IH|discriminate].
Qed.

Lemma str_contains_cons m c h :
  str_contains m (String c h) = String.prefix m (String c h) || str_contains m h.
Proof. reflexivity. Qed.

Lemma str_contains_append_l m a b :
  str_contains m a = true → str_contains m (a +:+ b) = true.
Proof.
  induction a as [|c a IH].
  - destruct m; [|discriminate]. by destruct b.
  - rewrite append_cons, !str_contains_cons, !orb_true_iff.
    intros [Hp|Hc]; [left|right; by apply IH].
    by apply (prefix_append m (String c a) b).
Qed.

Lemma str_contains_append_r m a b :
  str_contains m b = true → str_contains m (a +:+ b) = true.
Proof.
  intros Hb. induction a as [|c a IH]; [done|].
  rewrite append_cons, str_contains_cons, IH. apply orb_true_r.
Qed.

Lemma str_contains_join m sep c tokens :
  c ∈ tokens → str_contains m c = true →
  str_contains m (str_join sep tokens) = true.
Proof.
  intros Hin Hc. induction tokens as [|x rest IH]; [by apply elem_of_nil in Hin|].
  apply elem_of_cons in Hin as [<-|Hin].
  - destruct rest; [done|]. by apply str_contains_append_l.
  - destruct rest as [|y rest]; [by apply elem_of_nil in Hin|].
    change (str_join sep (x :: y :: rest))
      with (x +:+ sep +:+ str_join sep (y :: rest)).
    do 2 apply str_contains_append_r. by apply IH.
Qed.

(** The way bs4 matches the class attribute against the lambda of the
    crawler comes to this: the attribute contains both markers. *)
Lemma tool_card_class_carries (t : Tag) :
  class_matches tool_card_class (tag_class t) = true ↔
  carries "text-lg" t ∧ carries "font-semibold" t.
Proof.
  unfold carries, class_text, class_matches.
  destruct (tag_class t) as [tokens|]; simpl; [|split; [done|by intros [? _]]].
  rewrite orb_true_iff, existsb_exists. split.
  - intros [(c & Hin & Hc)|Hjoined].
    + apply list_elem_of_In in Hin. simpl in Hc.
      apply andb_true_iff in Hc as [Hc Hlg]. apply andb_true_iff in Hc as [_ Hsb].
      split; by eapply str_contains_join.
    + apply andb_true_iff in Hjoined as [Hj Hlg].
      by apply andb_true_iff in Hj as [_ Hsb].
  - intros [Hlg Hsb]. right. rewrite Hlg, Hsb, !andb_true_r.
    destruct (str_join " " tokens); [discriminate|done].
Qed.

Lemma find_all_tool_cards soup :
  find_all "h4" tool_card_class soup = capability_headings soup.
Proof.
  unfold find_all, capability_headings. apply list_filter_iff. intros t.
  unfold capability_heading. by rewrite tool_card_class_carries.
Qed.

Lemma first_tag_after before cls kids after :
  Forall (λ n, ¬ is_paragraph n) before →
  first_tag "p" (before ++ NTag "p" cls kids :: after) = Some (mkTag "p" cls kids after).
Proof.
  induction 1 as [|n before Hn _ IH]; simpl; [done|].
  destruct n as [| |name ??]; try done.
  destruct (decide (name = "p")) as [->|]; [by destruct Hn|done].
Qed.

Lemma first_tag_none nodes :
  Forall (λ n, ¬ is_paragraph n) nodes → first_tag "p" nodes = None.
Proof.
  induction 1 as [|n nodes Hn _ IH]; simpl; [done|].
  destruct n as [| |name ??]; try done.
  destruct (decide (name = "p")) as [->|]; [by destruct Hn|done].
Qed.

(** ** The traversal of the document and the positions of its elements *)

(** Induction on a node, with the property for the nodes it contains. *)
Lemma Node_forall_ind (P : Node → Prop) :
  (∀ s, P (NString s)) → (∀ s, P (NComment s)) →
  (∀ name cls kids, Forall P kids → P (NTag name cls kids)) →
  ∀ node, P node.
Proof.
  intros Hstring Hcomment Htag. fix IH 1.
  intros [s|s|name cls kids]; [apply Hstring|apply Hcomment|].
  apply Htag. induction kids as [|kid kids IHkids]; constructor;
    [apply IH|apply IHkids].
Qed.

Lemma tags_from_tag name cls kids after :
  tags_from (NTag name cls kids) after
  = mkTag name cls kids after :: descendant_tags kids.
Proof. reflexivity. Qed.

Lemma paths_from_tag name cls kids :
  paths_from (NTag name cls kids) = [] :: tag_paths 0 kids.
Proof. reflexivity. Qed.

Lemma tag_at_cons nodes i q :
  tag_at nodes (i :: q) =
  match nodes !! i with
  | Some (NTag name cls kids) =>
      match q with
      | [] => Some (mkTag name cls kids (drop (S i) nodes))
      | _ => tag_at kids q
      end
  | _ => None
  end.
Proof. reflexivity. Qed.

Lemma tag_at_middle before node after q :
  tag_at (before ++ node :: after) (length before :: q) =
  match node with
  | NTag name cls kids =>
      match q with
      | [] => Some (mkTag name cls kids after)
      | _ => tag_at kids q
      end
  | _ => None
  end.
Proof.
  rewrite tag_at_cons, list_lookup_middle by done.
  destruct node as [| |name cls kids]; try done. destruct q; [|done].
  rewrite cons_middle, app_assoc.
  by rewrite (drop_app_length' (before ++ [_]) after)
    by (by rewrite length_app, Nat.add_1_r).
Qed.

(** The traversal meets, one by one and in this order, the elements at the
    positions that [tag_paths] lists. *)
Lemma descendant_tags_at nodes :
  ∀ before,
    Forall2 (λ p t, tag_at (before ++ nodes) p = Some t)
      (tag_paths (length before) nodes) (descendant_tags nodes).
Proof.
  assert (Hnodes : ∀ nodes,
    Forall (λ node, ∀ after before,
      Forall2 (λ q t, tag_at (before ++ node :: after) (length before :: q) = Some t)
        (paths_from node) (tags_from node after)) nodes →
    ∀ before,
      Forall2 (λ p t, tag_at (before ++ nodes) p = Some t)
        (tag_paths (length before) nodes) (descendant_tags nodes)).
  { induction 1 as [|node rest Hnode _ IH]; intros before; [constructor|].
    cbn [tag_paths descendant_tags]. apply Forall2_app.
    - apply Forall2_fmap_l, Hnode.
    - specialize (IH (before ++ [node])).
      by rewrite <- app_assoc, length_app, Nat.add_1_r in IH. }
  apply Hnodes. apply Forall_forall. intros node _. clear nodes.
  induction node as [s|s|name cls kids IH] using Node_forall_ind;
    intros after before; [constructor|constructor|].
  rewrite paths_from_tag, tags_from_tag. constructor.
  - by rewrite tag_at_middle.
  - eapply Forall2_impl; [apply (Hnodes kids IH [])|].
    intros q t Hq. rewrite tag_at_middle. by destruct q.
Qed.

(** Every element of the document is at one of these positions. *)
Lemma tag_paths_complete nodes :
  ∀ before i q t,
    tag_at (before ++ nodes) (i :: q) = Some t → (length before ≤ i)%nat →
    i :: q ∈ tag_paths (length before) nodes.
Proof.
  assert (Hnodes : ∀ nodes,
    Forall (λ node, ∀ after before q t,
      tag_at (before ++ node :: after) (length before :: q) = Some t →
      q ∈ paths_from node) nodes →
    ∀ before i q t,
      tag_at (before ++ nodes) (i :: q) = Some t → (length before ≤ i)%nat →
      i :: q ∈ tag_paths (length before) nodes).
  { induction 1 as [|node rest Hnode _ IH]; intros before i q t Hat Hi.
    - rewrite tag_at_cons, app_nil_r, lookup_ge_None_2 in Hat by done. discriminate.
    - cbn [tag_paths]. apply elem_of_app.
      destruct (decide (i = length before)) as [->|Hne].
      + left. apply list_elem_of_fmap. exists q. split; [done|]. by eapply Hnode.
      + right. specialize (IH (before ++ [node]) i q t).
        rewrite <- app_assoc, length_app, Nat.add_1_r in IH. apply IH; [done|lia]. }
  apply Hnodes. apply Forall_forall. intros node _. clear nodes.
  induction node as [s|s|name cls kids IH] using Node_forall_ind;
    intros after before q t; rewrite tag_at_middle; try discriminate.
  rewrite paths_from_tag. destruct q as [|j q]; [intros _; apply elem_of_cons; by left|].
  intros Hat. apply elem_of_cons. right.
  apply (Hnodes kids IH [] j q t); [done|simpl; lia].
Qed.

(** The positions are listed in document order. *)
Lemma tag_paths_sorted nodes :
  ∀ j, StronglySorted document_order (tag_paths j nodes) ∧
       Forall (λ p, ∃ i q, p = i :: q ∧ (j ≤ i)%nat) (tag_paths j nodes).
Proof.
  assert (Hnodes : ∀ nodes,
    Forall (λ node, StronglySorted document_order (paths_from node)) nodes →
    ∀ j, StronglySorted document_order (tag_paths j nodes) ∧
         Forall (λ p, ∃ i q, p = i :: q ∧ (j ≤ i)%nat) (tag_paths j nodes)).
  { induction 1 as [|node rest Hnode _ IH]; intros j.
    - split; constructor.
    - cbn [tag_paths]. destruct (IH (S j)) as [Hsorted Hfrom]. split.
      + apply StronglySorted_app_2.
        * intros p1 p2 (q1 & -> & _)%list_elem_of_fmap Hp2.
          rewrite Forall_forall in Hfrom.
          destruct (Hfrom p2 Hp2) as (i & q2 & -> & Hi). simpl. left. lia.
        * eapply StronglySorted_fmap; [|exact Hnode].
          intros q1 q2 Hq. simpl. by right.
        * done.
      + apply Forall_app. split.
        * apply Forall_fmap, Forall_forall. intros q _. by exists j, q.
        * eapply Forall_impl; [exact Hfrom|].
          intros p (i & q & -> & Hi). exists i, q. split; [done|lia]. }
  apply Hnodes. apply Forall_forall. intros node _. clear nodes.
  induction node as [s|s|name cls kids IH] using Node_forall_ind;
    [constructor|constructor|].
  rewrite paths_from_tag. destruct (Hnodes kids IH 0) as [Hsorted Hfrom].
  constructor; [done|].
  eapply Forall_impl; [exact Hfrom|]. by intros p (i & q & -> & _).
Qed.

Lemma StronglySorted_filter {A} (R : relation A) (P : A → Prop)
    `{∀ x, Decision (P x)} (l : list A) :
  StronglySorted R l → StronglySorted R (filter P l).
Proof.
  induction 1 as [|x l _ IH Hx]; [constructor|].
  rewrite filter_cons. destruct (decide (P x)); [|done].
  constructor; [done|]. apply Forall_forall.
  intros y [_ Hy]%list_elem_of_filter. rewrite Forall_forall in Hx. by apply Hx.
Qed.

(** An element that the traversal meets is at some position. *)
Lemma descendant_tags_position soup t :
  t ∈ descendant_tags soup → ∃ p, tag_at soup p = Some t.
Proof.
  intros Ht. pose proof (descendant_tags_at soup []) as Hat.
  apply list_elem_of_lookup in Ht as [k Hk].
  destruct (Forall2_lookup_r _ _ _ _ _ Hat Hk) as (p & _ & Hp). eauto.
Qed.

Section ExtractorFacts.
Context `{L : Libraries}.

Lemma tool_card_step_kept tools t :
  tool_card_step tools t =
  if decide (kept_name (get_text_strip t)) then tools ++ [descriptor_of t] else tools.
Proof.
  unfold tool_card_step, kept_name, descriptor_of.
  destruct (decide _) as [(Hne & Hex & Hup)|Hno].
  - rewrite bool_decide_eq_false_2, bool_decide_eq_false_2, Hup by done. simpl.
    by destruct (find_next_sibling "p" t).
  - repeat case_bool_decide; simpl; try done.
    destruct (str_isupper _) eqn:Hup; [done|]. by destruct Hno.
Qed.

(** The loop appends, in the order of the cards, the descriptors of those
    whose name is kept. *)
Lemma tool_card_loop cards tools :
  foldl tool_card_step tools cards =
  tools ++ (descriptor_of <$> filter (λ t, kept_name (get_text_strip t)) cards).
Proof.
  revert tools. induction cards as [|t cards IH]; intros tools; simpl.
  - by rewrite app_nil_r.
  - rewrite IH, tool_card_step_kept, filter_cons.
    destruct (decide _); [|done]. by rewrite <- app_assoc.
Qed.

(** The extractor raises what the parser raises, and nothing else. *)
Lemma parse_tools_accepted html :
  _parse_tools_from_html html =
  soup ← BeautifulSoup html; Ok (descriptor_of <$> accepted_headings soup).
Proof.
  unfold _parse_tools_from_html, accepted_headings.
  destruct (BeautifulSoup html) as [soup|e]; [|done]. simpl.
  by rewrite find_all_tool_cards, tool_card_loop.
Qed.

Lemma descriptor_by_next_paragraph t :
  described_by_next_paragraph t (descriptor_of t).
Proof.
  split.
  - intros p (before & cls & kids & after & Hsib & Hbefore & ->).
    unfold descriptor_of, find_next_sibling. simpl.
    by rewrite Hsib, first_tag_after.
  - intros Hnone. unfold descriptor_of, find_next_sibling. simpl.
    by rewrite first_tag_none.
Qed.

(** The accepted headings that the traversal meets, against their
    positions. *)
Lemma accepted_headings_located soup :
  descriptors_of_accepted_headings (λ t d, d = descriptor_of t) soup
    (descriptor_of <$> accepted_headings soup).
Proof.
  exists (filter (accepted_at soup) (tag_paths 0 soup)). split; [|split].
  - apply StronglySorted_filter, tag_paths_sorted.
  - intros p. rewrite list_elem_of_filter. split; [by intros [? _]|].
    intros (t & Hat & Ht). split; [by exists t|].
    destruct p as [|i q]; [discriminate|].
    apply (tag_paths_complete soup [] i q t); [done|simpl; lia].
  - unfold accepted_headings, capability_headings.
    rewrite list_filter_filter. apply Forall2_fmap_r.
    eapply Forall2_impl.
    + apply (Forall2_filter _ (accepted_at soup)
               (λ t, kept_name (get_text_strip t) ∧ capability_heading t));
        [|apply (descendant_tags_at soup [])].
      intros p t Hat. simpl in Hat. unfold accepted_at, accepted. split.
      * intros (t' & Hat' & ? & ?). by simplify_eq.
      * intros [? ?]. by exists t.
    + intros p t Hat. by exists t.
Qed.

End ExtractorFacts.

Section ExtractorClaims.
Context `{L : Libraries}.

(** C6, amended.  The extractor passes on the exception of the parser when
    the parser gives up on the document, and raises in no other case.  On
    the tree that the parser builds it returns one descriptor for each
    accepted heading, in document order: the positions of the [h4] headings
    whose class carries both "text-lg" and "font-semibold" and whose
    stripped text is not empty, is no excluded label and is not entirely
    upper-case stand, sorted, one for one against the descriptors, and each
    descriptor has the stripped text of its heading for name.  In
    particular the extractor returns nothing for a document all of whose
    capability headings are excluded labels. *)
Theorem extractor_keeps_capability_headings (html : string) :
  match BeautifulSoup html with
  | Raise e => _parse_tools_from_html html = Raise e
  | Ok soup =>
      ∃ tools paths,
        _parse_tools_from_html html = Ok tools ∧
        StronglySorted document_order paths ∧
        (∀ p, p ∈ paths ↔
              ∃ t, tag_at soup p = Some t ∧ capability_heading t ∧
                   kept_name (get_text_strip t)) ∧
        Forall2 (λ p d, ∃ t, tag_at soup p = Some t ∧
                             ToolInfo.name d = get_text_strip t)
                paths tools ∧
        ((∀ p t, tag_at soup p = Some t → capability_heading t →
                 get_text_strip t ∈ excluded_names) →
         tools = [])
  end.
Proof.
  rewrite parse_tools_accepted.
  destruct (BeautifulSoup html) as [soup|e]; [|done]. simpl.
  destruct (accepted_headings_located soup) as (paths & Hsorted & Hpaths & Hall).
  exists (descriptor_of <$> accepted_headings soup), paths.
  split; [done|]. split; [done|]. split; [exact Hpaths|]. split.
  - eapply Forall2_impl; [exact Hall|]. intros p d (t & ? & ? & _). eauto.
  - intros Hexcluded.
    destruct (accepted_headings soup) as [|t ts] eqn:Hts; [done|].
    assert (Ht : t ∈ accepted_headings soup) by (rewrite Hts; apply elem_of_cons; by left).
    unfold accepted_headings, capability_headings in Ht.
    apply list_elem_of_filter in Ht as [(_ & Hex & _) Ht].
    apply list_elem_of_filter in Ht as [Hheading Ht].
    apply descendant_tags_position in Ht as [p Hp].
    destruct Hex. by eapply Hexcluded.
Qed.

(** C7, amended.  The extractor returns one descriptor for each accepted
    heading of the document, in document order; its name is the stripped
    text of the heading, and its description is the stripped text of the
    first paragraph among the siblings that follow the heading, adjacent to
    it or not; the description is absent when no paragraph follows among the
    siblings. *)
Theorem description_is_next_sibling_paragraph
    (html : string) (soup : list Node) (tools : list ToolInfo.t) :
  BeautifulSoup html = Ok soup →
  _parse_tools_from_html html = Ok tools →
  descriptors_of_accepted_headings described_by_next_paragraph soup tools.
Proof.
  rewrite parse_tools_accepted. intros -> [= <-].
  destruct (accepted_headings_located soup) as (paths & Hsorted & Hpaths & Hall).
  exists paths. split; [done|]. split; [done|].
  eapply Forall2_impl; [exact Hall|].
  intros p d (t & Hat & Hname & ->). exists t.
  split; [done|]. split; [done|]. apply descriptor_by_next_paragraph.
Qed.

End ExtractorClaims.

Lemma extractor_keeps_capability_headings_witness :
  ∃ tools paths,
    _parse_tools_from_html (L:=example_libraries) page_mixed = Ok tools ∧
    StronglySorted document_order paths ∧
    (∀ p, p ∈ paths ↔
          ∃ t, tag_at (lookup_document page_mixed example_documents) p = Some t ∧
               capability_heading t ∧
               kept_name (L:=example_libraries)
                 (get_text_strip (L:=example_libraries) t)) ∧
    Forall2 (λ p d, ∃ t, tag_at (lookup_document page_mixed example_documents) p
                         = Some t ∧
                         ToolInfo.name d = get_text_strip (L:=example_libraries) t)
            paths tools ∧
    tools = [ToolInfo.mk "search" (Some "Finds things."); ToolInfo.mk "fetchpage" None] ∧
    length paths = 2.
Proof.
  destruct (extractor_keeps_capability_headings (L:=example_libraries) page_mixed)
    as (tools & paths & Htools & Hsorted & Hpaths & Hall & _).
  exists tools, paths. split; [exact Htools|]. split; [exact Hsorted|].
  split; [exact Hpaths|]. split; [exact Hall|].
  assert (tools = [ToolInfo.mk "search" (Some "Finds things.");
                   ToolInfo.mk "fetchpage" None]) as Heq.
  { vm_compute in Htools. by injection Htools as <-. }
  split; [exact Heq|]. rewrite (Forall2_length _ _ _ Hall), Heq. reflexivity.
Defined.

(** C6 as stated fails on a document that makes the parser raise, such as
    [page_surrogate]: whatever the libraries and the document, the extractor
    raises to its caller what the parser raises. *)
Lemma parser_error_leaves_the_extractor :
  (∀ (L : Libraries) (html : string) (e : PyExn),
     BeautifulSoup html = Raise e → _parse_tools_from_html html = Raise e) ∧
  ∃ e, BeautifulSoup (Libraries:=example_libraries) page_surrogate = Raise e ∧
       _parse_tools_from_html (L:=example_libraries) page_surrogate = Raise e ∧
       ¬ ∃ tools,
           _parse_tools_from_html (L:=example_libraries) page_surrogate = Ok tools.
Proof.
  split.
  - intros L html e He. unfold _parse_tools_from_html. by rewrite He.
  - eexists. split; [vm_compute; reflexivity|]. split; [vm_compute; reflexivity|].
    intros [tools Htools]. vm_compute in Htools. discriminate.
Qed.

Lemma description_is_next_sibling_paragraph_witness :
  descriptors_of_accepted_headings (L:=example_libraries)
    (described_by_next_paragraph (L:=example_libraries))
    (lookup_document page_card example_documents)
    [ToolInfo.mk "search" (Some "Finds things.")] ∧
  descriptors_of_accepted_headings (L:=example_libraries)
    (described_by_next_paragraph (L:=example_libraries))
    (lookup_document page_card_then_block example_documents)
    [ToolInfo.mk "search" (Some "About us")].
Proof.
  split.
  - apply (description_is_next_sibling_paragraph (L:=example_libraries) page_card);
      vm_compute; reflexivity.
  - apply (description_is_next_sibling_paragraph (L:=example_libraries)
             page_card_then_block); vm_compute; reflexivity.
Defined.

(** C7 as stated fails on the page [page_card_then_block]: right after the
    heading "search" comes a [div], not a paragraph, and yet the descriptor
    has a description, the text of the paragraph further on. *)
Lemma description_from_a_later_paragraph :
  BeautifulSoup (Libraries:=example_libraries) page_card_then_block
    = Ok (lookup_document page_card_then_block example_documents) ∧
  _parse_tools_from_html (L:=example_libraries) page_card_then_block
    = Ok [ToolInfo.mk "search" (Some "About us")] ∧
  ¬ descriptors_of_accepted_headings (L:=example_libraries)
      (described_by_adjacent_paragraph (L:=example_libraries))
      (lookup_document page_card_then_block example_documents)
      [ToolInfo.mk "search" (Some "About us")].
Proof.
  split; [reflexivity|]. split; [vm_compute; reflexivity|].
  intros (paths & _ & Hpaths & Hall).
  apply Forall2_cons_inv_r in Hall as (p & paths' & (t & Hat & _ & _ & Habsent) & Hnil & ->).
  apply Forall2_nil_inv_r in Hnil as ->.
  assert (Hheading : [0; 0; 0] ∈ [p]).
  { apply Hpaths. eexists. split; [reflexivity|]. split.
    - split; [reflexivity|]. split; vm_compute; reflexivity.
    - apply (bool_decide_unpack _). vm_compute. exact I. }
  apply list_elem_of_singleton in Hheading as <-.
  vm_compute in Hat. injection Hat as <-.
  enough (Hnone : Some "About us" = None) by discriminate.
  apply Habsent. intros (p & before & cls & kids & after & Hsib & Hbefore & _).
  simpl in Hsib. destruct before as [|n before]; simpl in Hsib; [discriminate|].
  injection Hsib as <- _. apply Forall_cons_1 in Hbefore as [Hdiv _]. by apply Hdiv.
Qed.

(** ** Enrichment orchestrator *)

Lemma prefix_refl s : String.prefix s s = true.
Proof. induction s as [|c s IH]; simpl; [done|]. by destruct (ascii_dec c c). Qed.

Lemma str_contains_refl s : str_contains s s = true.
Proof. destruct s; [done|]. by rewrite str_contains_cons, prefix_refl. Qed.

Lemma set_tools_idemp ts (e : ServerInfo.t) :
  ServerInfo.set_tools ts (ServerInfo.set_tools ts e) = ServerInfo.set_tools ts e.
Proof. done. Qed.

(** The statuses below 400 pass [raise_for_status] in both classes of
    response, and the statuses from 400 to 599 raise in both. *)
Lemma raise_for_status_passes response :
  (status_code response < 400)%Z → raise_for_status response = Ok ().
Proof.
  intros Hstatus. unfold raise_for_status.
  destruct (response_class response); repeat case_bool_decide; first [done|lia].
Qed.

Lemma raise_for_status_error response :
  (400 ≤ status_code response < 600)%Z →
  ∃ msg, raise_for_status response = Raise (mkExn HTTPError msg).
Proof.
  intros Hstatus. unfold raise_for_status.
  destruct (response_class response); repeat case_bool_decide; eauto; lia.
Qed.

Lemma fetch_detail_page_body session url body :
  detail_body session url = Some body →
  _fetch_detail_page session url = Ok (Some body).
Proof.
  unfold detail_body, _fetch_detail_page.
  destruct (session url) as [response|e]; [|done]. simpl.
  case_bool_decide as Hok; [|done]. intros [= <-].
  by rewrite raise_for_status_passes.
Qed.

Lemma fetch_detail_page_fails session url :
  detail_fetch_fails session url →
  _fetch_detail_page session url = Ok None ∨
  ∃ e, _fetch_detail_page session url = Raise e.
Proof.
  unfold _fetch_detail_page.
  intros [(e & ->)|(response & -> & Hstatus)]; simpl.
  - destruct (is_RequestException e); eauto.
  - destruct (raise_for_status_error _ Hstatus) as [msg ->]. simpl. by left.
Qed.

Section EnrichmentFacts.
Context `{L : Libraries}.

(** A task whose fetch gives a non-empty body returns the tools that the
    extractor returns for the body. *)
Lemma fetch_tools_body session store server body tools :
  detail_body session (ServerInfo.marketplace_url (store !!! server)) = Some body →
  body ≠ "" →
  _parse_tools_from_html body = Ok tools →
  fetch_tools session store server = (server, Some tools, None).
Proof.
  intros Hbody Hne Htools. unfold fetch_tools.
  rewrite (fetch_detail_page_body _ _ _ Hbody). simpl.
  rewrite bool_decide_eq_false_2 by done. simpl. by rewrite Htools.
Qed.

(** A task whose fetch gives the empty body returns the failure of a fetch. *)
Lemma fetch_tools_empty_body session store server :
  detail_body session (ServerInfo.marketplace_url (store !!! server)) = Some "" →
  fetch_tools session store server =
  (server, None,
   Some ("Failed to fetch " +:+ ServerInfo.marketplace_url (store !!! server))).
Proof.
  intros Hbody. unfold fetch_tools.
  by rewrite (fetch_detail_page_body _ _ _ Hbody).
Qed.

(** A task whose fetch fails returns an error that names its entry. *)
Lemma fetch_tools_fails session store server :
  detail_fetch_fails session (ServerInfo.marketplace_url (store !!! server)) →
  ∃ err, fetch_tools session store server = (server, None, Some err) ∧
         err ≠ "" ∧ references err (store !!! server).
Proof.
  intros Hfails. unfold fetch_tools, references.
  destruct (fetch_detail_page_fails _ _ Hfails) as [->|[e ->]]; simpl.
  - eexists. split; [done|]. split; [done|]. left.
    apply str_contains_append_r, str_contains_refl.
  - eexists. split; [done|]. split; [done|]. right.
    apply str_contains_append_r, str_contains_append_l, str_contains_refl.
Qed.

(** The loop appends the errors of the results, in the order it meets them. *)
Lemma foldl_collect_errors rs store errors :
  (foldl collect (store, errors) rs).2 = errors ++ omap task_error rs.
Proof.
  revert store errors. induction rs as [|[[server tools] error] rs IH];
    intros store errors; simpl.
  - by rewrite app_nil_r.
  - unfold task_error. simpl. destruct (truthy_opt_str error) eqn:Herr.
    + rewrite IH, <- app_assoc. destruct error; done.
    + destruct tools; by rewrite IH.
Qed.

(** An object none of whose tasks brings tools is left as it was. *)
Lemma foldl_collect_untouched rs store errors l :
  Forall (λ r : TaskResult, r.1.1 = l → truthy_opt_str r.2 = true ∨ r.1.2 = None) rs →
  (foldl collect (store, errors) rs).1 !! l = store !! l.
Proof.
  intros Hrs. revert store errors.
  induction Hrs as [|[[server tools] error] rs Hr _ IH]; intros store errors; [done|].
  simpl in *. destruct (truthy_opt_str error) eqn:Herr; [apply IH|].
  destruct tools as [tools|]; [|apply IH].
  rewrite IH. apply lookup_alter_ne. intros ->. by destruct Hr.
Qed.

(** An object all of whose tasks bring the same tools ends with these tools,
    if it has a task at all. *)
Lemma foldl_collect_assigned rs store errors l ts :
  Forall (λ r : TaskResult, r.1.1 = l → r = (l, Some ts, None)) rs →
  Exists (λ r : TaskResult, r.1.1 = l) rs →
  (foldl collect (store, errors) rs).1 !! l = ServerInfo.set_tools ts <$> store !! l.
Proof.
  intros Hrs. revert store errors.
  induction Hrs as [|[[server tools] error] rs Hr Hrs IH]; intros store errors Hex.
  { by apply Exists_nil in Hex. }
  simpl in *. destruct (decide (server = l)) as [->|Hne].
  - injection (Hr eq_refl) as -> ->. simpl.
    destruct (decide (Exists (λ r : TaskResult, r.1.1 = l) rs)) as [Hmore|Hnomore].
    + rewrite IH by done. rewrite lookup_alter_eq.
      destruct (store !! l); simpl; by rewrite ?set_tools_idemp.
    + rewrite foldl_collect_untouched; [apply lookup_alter_eq|].
      apply not_Exists_Forall in Hnomore; [|apply _].
      eapply Forall_impl; [exact Hnomore|]. simpl. intros r Hr' Hl. done.
  - apply Exists_cons in Hex as [Hl|Hex]; [done|].
    destruct (truthy_opt_str error); [by apply IH|].
    destruct tools; rewrite IH by done; [|done].
    by rewrite lookup_alter_ne.
Qed.

Lemma omap_lookup_seq {A} (before futures : list A) :
  omap (λ i, (before ++ futures) !! i) (seq (length before) (length futures))
  = futures.
Proof.
  revert before. induction futures as [|x futures IH]; intros before; [done|].
  simpl. rewrite list_lookup_middle by done. f_equal.
  specialize (IH (before ++ [x])).
  by rewrite <- app_assoc, length_app, Nat.add_1_r in IH.
Qed.

(** In a run the loop meets the results of all the tasks, in some order. *)
Lemma completed_results {A} (futures : list A) completed :
  completed ≡ₚ seq 0 (length futures) →
  omap (λ i, futures !! i) completed ≡ₚ futures.
Proof.
  intros ->. pose proof (omap_lookup_seq [] futures) as Hall. simpl in Hall.
  by rewrite Hall.
Qed.

(** The loop assigns [tools] only: what a task reads of its entry, the URL
    and the slug, is the same in every store that the loop goes through, so
    a task gives the same result whenever it runs. *)
Lemma foldl_collect_keeps_fields rs store errors l :
  let store' := (foldl collect (store, errors) rs).1 in
  ServerInfo.marketplace_url (store' !!! l) = ServerInfo.marketplace_url (store !!! l) ∧
  ServerInfo.slug (store' !!! l) = ServerInfo.slug (store !!! l).
Proof.
  revert store errors. induction rs as [|[[server tools] error] rs IH];
    intros store errors; [done|].
  simpl in *. destruct (truthy_opt_str error); [apply IH|].
  destruct tools as [tools|]; [|apply IH].
  destruct (IH (alter (ServerInfo.set_tools tools) server store) errors) as [-> ->].
  rewrite lookup_total_alter. destruct (decide (server = l)) as [->|]; [|done].
  rewrite lookup_total_alt. by destruct (store !! l).
Qed.

Lemma fetch_tools_any_time session rs store errors server :
  fetch_tools session (foldl collect (store, errors) rs).1 server
  = fetch_tools session store server.
Proof.
  unfold fetch_tools.
  by destruct (foldl_collect_keeps_fields rs store errors server) as [-> ->].
Qed.

Lemma fetch_tools_server session store server :
  (fetch_tools session store server).1.1 = server.
Proof.
  unfold fetch_tools.
  destruct (_fetch_detail_page _ _) as [html|e]; simpl; [|done].
  destruct (truthy_opt_str html); simpl; [|done].
  by destruct (_parse_tools_from_html _).
Qed.

Lemma omap_none {A B} (f : A → option B) (l : list A) :
  Forall (λ x, f x = None) l → omap f l = [].
Proof. induction 1 as [|x l Hx _ IH]; simpl; [done|]. by rewrite Hx. Qed.

(** The errors of a run in which one task fails and the others bring
    tools: the error of that task, alone. *)
Lemma errors_of_single_failure (futures : list TaskResult) i server err :
  futures !! i = Some (server, None, Some err) → err ≠ "" →
  (∀ j r, j ≠ i → futures !! j = Some r → r.2 = None) →
  omap task_error futures = [err].
Proof.
  intros Hi Herr Hothers.
  rewrite <- (take_drop_middle futures i _ Hi), omap_app. simpl.
  rewrite !omap_none.
  - unfold task_error. simpl. by rewrite bool_decide_eq_false_2.
  - apply Forall_lookup. intros j r Hj. rewrite lookup_drop in Hj.
    unfold task_error. rewrite (Hothers (S i + j) r ltac:(lia) Hj). done.
  - apply Forall_lookup. intros j r Hj. apply lookup_take_Some in Hj as [Hj ?].
    unfold task_error. rewrite (Hothers j r ltac:(lia) Hj). done.
Qed.

End EnrichmentFacts.

(** ** The claims on the enrichment orchestrator *)

Section EnrichmentClaims.
Context `{L : Libraries}.

(** C1, amended.  Take a run of the orchestrator over N entries in which the
    detail fetch of the entry at position [i] fails, by an exception or an
    error status, and the fetch of every other entry gives a non-empty body
    for which the extractor returns, the tasks completing in any order.  The
    run returns; the sequence of entries that the caller holds still has N
    entries, each in its place; the entry at [i] is as it was, so that its
    capabilities stay empty; every other entry has for [tools] the result of
    the extractor on its body and is otherwise as it was; and the error list
    has exactly one string, which names the failing entry. *)
Theorem enrichment_isolates_the_failing_entry
    (session : Session) (store : gmap loc ServerInfo.t) (servers : list loc)
    (max_workers : Z) (completed : list nat) (i : nat) (failing : loc) :
  (0 < max_workers)%Z →
  completion_order completed servers →
  Forall (λ server, is_Some (store !! server)) servers →
  servers !! i = Some failing →
  detail_fetch_fails session (ServerInfo.marketplace_url (store !!! failing)) →
  (∀ j server, j ≠ i → servers !! j = Some server →
     ∃ body tools, body ≠ "" ∧
       detail_body session (ServerInfo.marketplace_url (store !!! server)) = Some body ∧
       _parse_tools_from_html body = Ok tools) →
  isolates_failure session store servers i failing
    (_enrich_with_tools session store servers max_workers completed).
Proof.
  intros Hworkers Horder Halloc Hi Hfails Hothers.
  unfold isolates_failure, _enrich_with_tools. rewrite bool_decide_eq_false_2 by lia.
  set (futures := fetch_tools session store <$> servers).
  assert (Hperm : omap (λ k, futures !! k) completed ≡ₚ futures).
  { apply completed_results. unfold futures. by rewrite length_fmap. }
  assert (Hfuture : ∀ r, r ∈ futures → r = fetch_tools session store r.1.1).
  { intros r (server & -> & _)%list_elem_of_fmap. by rewrite fetch_tools_server. }
  destruct (fetch_tools_fails _ store failing Hfails) as (err & Hfailed & Herr & Hnames).
  set (final := foldl collect (store, []) (omap (λ k, futures !! k) completed)).
  exists final.1, final.2. split; [by destruct final|].
  split; [by unfold entries_of; rewrite length_fmap|]. unfold final. clear final.
  (* the object of the failing entry is left as it was *)
  assert (Huntouched :
    (foldl collect (store, []) (omap (λ k, futures !! k) completed)).1 !! failing
    = store !! failing).
  { apply foldl_collect_untouched. rewrite Hperm. apply Forall_forall.
    intros r Hr Hserver. rewrite (Hfuture r Hr), Hserver, Hfailed. simpl.
    left. by rewrite bool_decide_eq_false_2. }
  split; [|split].
  - unfold entries_of. rewrite !list_lookup_fmap, Hi. simpl.
    by rewrite !lookup_total_alt, Huntouched.
  - intros j entry Hj Hentry. unfold entries_of in *.
    rewrite list_lookup_fmap in Hentry |- *.
    destruct (servers !! j) as [server|] eqn:Hserver; [|done].
    injection Hentry as <-.
    destruct (Hothers j server Hj Hserver) as (body & tools & Hbody & Hgives & Htools).
    exists body, tools, (ServerInfo.set_tools tools (store !!! server)).
    split; [done|]. split; [done|]. split; [|done]. simpl. f_equal.
    assert (Hassigned :
      (foldl collect (store, []) (omap (λ k, futures !! k) completed)).1 !! server
      = ServerInfo.set_tools tools <$> store !! server).
    { apply foldl_collect_assigned; rewrite Hperm.
      - apply Forall_forall. intros r Hr Hs.
        rewrite (Hfuture r Hr), Hs. by eapply fetch_tools_body.
      - apply Exists_exists. exists (fetch_tools session store server).
        split; [|apply fetch_tools_server].
        apply list_elem_of_fmap. exists server. split; [done|].
        by eapply list_elem_of_lookup_2. }
    rewrite !lookup_total_alt, Hassigned.
    assert (is_Some (store !! server)) as [entry ->]; [|done].
    rewrite Forall_lookup in Halloc. by eapply Halloc.
  - exists err. split; [|done]. rewrite foldl_collect_errors. simpl.
    apply Permutation_singleton_r. rewrite Hperm.
    apply Permutation_refl', (errors_of_single_failure _ i failing); [|done|].
    + unfold futures. by rewrite list_lookup_fmap, Hi, <- Hfailed.
    + intros j r Hj Hr. unfold futures in Hr. rewrite list_lookup_fmap in Hr.
      destruct (servers !! j) as [server|] eqn:Hserver; [|done].
      injection Hr as <-.
      destruct (Hothers j server Hj Hserver) as (body & tools & Hbody & Hgives & Htools).
      by rewrite (fetch_tools_body _ _ _ _ _ Hgives Hbody Htools).
Qed.

(** C10.  Take an entry whose detail fetch returns with the empty body.  Its
    task gives the result of a failed fetch, the string "Failed to fetch"
    followed by the URL, and no capabilities, whatever the extractor is: the
    extractor has no part in it.  A transport failure on the same URL gives
    the same result.  And in a run the loop records that string and leaves
    the object of the entry as it was. *)
Theorem empty_body_counts_as_failed_fetch
    (session : Session) (store : gmap loc ServerInfo.t) (servers : list loc)
    (max_workers : Z) (completed : list nat) (i : nat) (server : loc) :
  (0 < max_workers)%Z →
  completion_order completed servers →
  servers !! i = Some server →
  detail_body session (ServerInfo.marketplace_url (store !!! server)) = Some "" →
  let url := ServerInfo.marketplace_url (store !!! server) in
  (∀ L' : Libraries,
     fetch_tools (L:=L') session store server
     = (server, None, Some ("Failed to fetch " +:+ url))) ∧
  (∀ session' e,
     session' url = Raise e → is_RequestException e = true →
     fetch_tools session' store server = fetch_tools session store server) ∧
  ∃ store' errors,
    _enrich_with_tools session store servers max_workers completed
      = Ok (store', errors) ∧
    "Failed to fetch " +:+ url ∈ errors ∧
    store' !! server = store !! server.
Proof.
  intros Hworkers Horder Hi Hempty url.
  assert (Htask : ∀ L' : Libraries,
            fetch_tools (L:=L') session store server
            = (server, None, Some ("Failed to fetch " +:+ url))).
  { intros L'. by apply fetch_tools_empty_body. }
  split; [done|]. split.
  { intros session' e Hraise Hreq. rewrite Htask.
    unfold fetch_tools, _fetch_detail_page. fold url. by rewrite Hraise; simpl; rewrite Hreq. }
  unfold _enrich_with_tools. rewrite bool_decide_eq_false_2 by lia.
  set (futures := fetch_tools session store <$> servers).
  assert (Hperm : omap (λ k, futures !! k) completed ≡ₚ futures).
  { apply completed_results. unfold futures. by rewrite length_fmap. }
  set (final := foldl collect (store, []) (omap (λ k, futures !! k) completed)).
  exists final.1, final.2. split; [by destruct final|]. unfold final. clear final.
  split.
  - rewrite foldl_collect_errors. simpl. apply list_elem_of_omap.
    exists (fetch_tools session store server). split.
    + rewrite Hperm. apply list_elem_of_fmap. exists server. split; [done|].
      by eapply list_elem_of_lookup_2.
    + rewrite Htask. by unfold task_error.
  - apply foldl_collect_untouched. rewrite Hperm. apply Forall_forall.
    intros r (server' & -> & _)%list_elem_of_fmap. rewrite fetch_tools_server.
    intros ->. rewrite Htask. by left.
Qed.

End EnrichmentClaims.

Lemma enrichment_isolates_the_failing_entry_witness :
  isolates_failure (L:=example_libraries) example_session example_store
    example_servers 1 1
    (_enrich_with_tools (L:=example_libraries) example_session example_store
       example_servers 5 [1; 0]) ∧
  ∃ store',
    _enrich_with_tools (L:=example_libraries) example_session example_store
      example_servers 5 [1; 0] = Ok (store', example_run_errors) ∧
    ServerInfo.tools <$> entries_of store' example_servers
    = [[ToolInfo.mk "search" (Some "Finds things.")]; []].
Proof.
  split.
  - apply (enrichment_isolates_the_failing_entry (L:=example_libraries)
             example_session example_store example_servers 5 [1; 0] 1 1).
    + reflexivity.
    + apply perm_swap.
    + apply (bool_decide_unpack _). vm_compute. exact I.
    + reflexivity.
    + right. eexists. split; [vm_compute; reflexivity|]. simpl. lia.
    + intros [|[|j]] server Hj Hserver; [|done|discriminate].
      injection Hserver as <-.
      exists page_card, [ToolInfo.mk "search" (Some "Finds things.")].
      split; [discriminate|]. split; vm_compute; reflexivity.
  - eexists. split; vm_compute; reflexivity.
Defined.

(** C1 as stated fails when the extractor raises on the body of another
    entry: the fetch fails for the second entry alone and gives a non-empty
    body for the first, [page_surrogate], on which the parser raises; the
    task of the first entry then ends in an error string as well,
    "Error processing" followed by its slug and the message, and the entry
    gets no capabilities. *)
Lemma extractor_error_is_a_second_failure :
  detail_fetch_fails example_session_surrogate
    (ServerInfo.marketplace_url (example_store !!! 1)) ∧
  (∀ j server, j ≠ 1 → example_servers !! j = Some server →
     ∃ body, body ≠ "" ∧
       detail_body example_session_surrogate
         (ServerInfo.marketplace_url (example_store !!! server)) = Some body) ∧
  (∃ store' errors,
     _enrich_with_tools (L:=example_libraries) example_session_surrogate
       example_store example_servers 5 [1; 0] = Ok (store', errors) ∧
     length errors = 2 ∧
     ServerInfo.tools <$> entries_of store' example_servers = [[]; []]) ∧
  ¬ isolates_failure (L:=example_libraries)
      example_session_surrogate example_store example_servers 1 1
      (_enrich_with_tools (L:=example_libraries)
         example_session_surrogate example_store example_servers 5 [1; 0]).
Proof.
  split; [|split; [|split]].
  - right. eexists. split; [vm_compute; reflexivity|]. simpl. lia.
  - intros [|[|j]] server Hj Hserver; [|done|discriminate].
    injection Hserver as <-. exists page_surrogate.
    split; [discriminate|]. vm_compute. reflexivity.
  - eexists _, _. split; [vm_compute; reflexivity|]. split; vm_compute; reflexivity.
  - intros (store' & errors & Hrun & _ & _ & _ & err & -> & _).
    vm_compute in Hrun. discriminate.
Qed.

Lemma empty_body_counts_as_failed_fetch_witness :
  let url := ServerInfo.marketplace_url (example_store !!! 1) in
  (∀ L' : Libraries,
     fetch_tools (L:=L') example_session_empty_body example_store 1
     = (1, None, Some ("Failed to fetch " +:+ url))) ∧
  (∀ session' e,
     session' url = Raise e → is_RequestException e = true →
     fetch_tools (L:=example_libraries) session' example_store 1
     = fetch_tools (L:=example_libraries) example_session_empty_body example_store 1) ∧
  ∃ store' errors,
    _enrich_with_tools (L:=example_libraries) example_session_empty_body
      example_store example_servers 5 [1; 0] = Ok (store', errors) ∧
    "Failed to fetch " +:+ url ∈ errors ∧
    store' !! 1 = example_store !! 1.
Proof.
  apply (empty_body_counts_as_failed_fetch (L:=example_libraries)
           example_session_empty_body example_store example_servers 5 [1; 0] 1 1).
  - reflexivity.
  - apply perm_swap.
  - reflexivity.
  - vm_compute. reflexivity.
Defined.

(** ** The claims on the scan orchestrator *)

Section ScanClaims.
Context `{L : Libraries}.

(** C9.  Whatever the scan returns, after a failed bulk fetch as after a
    complete scan, with or without enrichment, [total_servers] is the length
    of [servers]. *)
Theorem total_servers_is_length
    (requests_Session : Session) (completed : list nat)
    (include_tools : bool) (session : option Session) (r : ScanResult.t) :
  scan_marketplace_sync requests_Session completed include_tools session = Ok r →
  ScanResult.total_servers r = Z.of_nat (length (ScanResult.servers r)).
Proof.
  unfold scan_marketplace_sync.
  destruct (_fetch_api_data _) as [data|e].
  - intros H.
    apply bind_Ok in H as (repositories & _ & H).
    apply bind_Ok in H as (repos & _ & H).
    apply bind_Ok in H as (entries & _ & H).
    apply bind_Ok in H as ([store errors] & _ & H).
    injection H as <-. simpl. by rewrite length_fmap.
  - destruct (is_RequestException e); [|discriminate].
    by intros [= <-].
Qed.

(** C2, amended.  When the request for the listing meets a transport error
    or returns with an HTTP error status, 400 to 599, the scan returns,
    without raising, a result with [total_servers = 0], no entries, and one
    error string, which contains "Failed to fetch".  This holds for a
    response of the [requests] library as for one of the test double. *)
Theorem bulk_fetch_failure_is_reported
    (requests_Session : Session) (completed : list nat)
    (include_tools : bool) (session : option Session) :
  transport_error (default requests_Session session) ∨
  listing_status (default requests_Session session) (λ status, 400 ≤ status < 600)%Z →
  reports_bulk_failure
    (scan_marketplace_sync requests_Session completed include_tools session).
Proof.
  intros Hfails.
  assert (∃ e, _fetch_api_data (default requests_Session session) = Raise e ∧
               is_RequestException e = true) as (e & Hraise & Hreq).
  { unfold _fetch_api_data.
    destruct Hfails as [(e & -> & He)|(response & -> & Hstatus)]; simpl; [eauto|].
    destruct (raise_for_status_error _ Hstatus) as [msg ->]. simpl. eauto. }
  unfold scan_marketplace_sync, reports_bulk_failure. rewrite Hraise, Hreq.
  eexists. split; [done|]. by apply str_contains_append_l.
Qed.

End ScanClaims.

Lemma total_servers_is_length_witness :
  ∃ r, scan_marketplace_sync (L:=example_libraries) example_session [1; 0]
         true None = Ok r ∧
       ScanResult.total_servers r = Z.of_nat (length (ScanResult.servers r)) ∧
       ScanResult.total_servers r = 2%Z.
Proof.
  eexists. split; [vm_compute; reflexivity|]. split; [|reflexivity].
  apply (total_servers_is_length (L:=example_libraries) example_session [1; 0]
           true None).
  vm_compute. reflexivity.
Defined.

Lemma bulk_fetch_failure_is_reported_witness :
  reports_bulk_failure
    (scan_marketplace_sync (L:=example_libraries) example_session_down []
       true (Some example_session_down)) ∧
  reports_bulk_failure
    (scan_marketplace_sync (L:=example_libraries) example_session_503 []
       true None).
Proof.
  split.
  - apply (bulk_fetch_failure_is_reported (L:=example_libraries)).
    left. eexists. split; [vm_compute; reflexivity|reflexivity].
  - apply (bulk_fetch_failure_is_reported (L:=example_libraries)).
    right. eexists. split; [reflexivity|]. simpl. lia.
Defined.

(** C2 as stated fails when the listing comes with the status 302, which is
    not a 2xx status: the scan takes the listing and returns its entries. *)
Lemma redirect_status_is_no_failure :
  listing_status example_session_302 (λ status, ¬ (200 ≤ status < 300))%Z ∧
  ¬ reports_bulk_failure
      (scan_marketplace_sync (L:=example_libraries) example_session_302 []
         false (Some example_session_302)).
Proof.
  split.
  - eexists. split; [vm_compute; reflexivity|]. simpl. lia.
  - intros (err & Hscan & _). vm_compute in Hscan. discriminate.
Qed.

(* ===================================================================== *)
(** * Further properties                                                  *)
(* ===================================================================== *)

(** ** Entry normalizer *)

(** The two indexings of [parts] are guarded by the tests on its length:
    neither raises. *)
Lemma split_parts_Ok slug :
  let parts := str_split1 "/" slug in
  ∃ publisher name,
    (if bool_decide (0 < length parts) then py_index parts 0 else Ok "unknown")
      = Ok publisher ∧
    (if bool_decide (1 < length parts) then py_index parts 1 else Ok slug)
      = Ok name.
Proof.
  unfold str_split1. destruct (partition_first _ _) as [[before after]|]; simpl.
  - by exists before, after.
  - by exists slug, slug.
Qed.

Section NormalizerFurther.
Context `{L : Libraries}.

(** Every field of a returned entry, read off the record. *)
Lemma parse_api_server_fields repo e :
  _parse_api_server repo = Ok e →
  ∃ bindings tags,
    repo = JObj bindings ∧
    py_or (default JNull (assoc "tags" bindings)) (JObj []) = JObj tags ∧
    ServerInfo.github_url e =
      (if py_truthy (default JNull (assoc "git_slug" bindings))
       then Some (GITHUB_BASE_URL +:+ "/" +:+
                  py_str (default JNull (assoc "git_slug" bindings)))
       else None) ∧
    validate_opt_str (py_or (default JNull (assoc "description" bindings))
                            (default JNull (assoc "subtitle" bindings)))
      = Ok (ServerInfo.description e) ∧
    validate_opt_str (default JNull (assoc "language" tags))
      = Ok (ServerInfo.language e) ∧
    validate_opt_int (default JNull (assoc "heat_score" bindings))
      = Ok (ServerInfo.heat_score e) ∧
    validate_opt_int (default JNull (assoc "upvote_count" bindings))
      = Ok (ServerInfo.upvote_count e).
Proof.
  unfold _parse_api_server. intros H.
  apply bind_Ok in H as (slug_v & Hslug & H).
  apply py_get_Ok in Hslug as (bindings & -> & ->).
  apply bind_Ok in H as (slug & _ & H).
  apply bind_Ok in H as (publisher & _ & H).
  apply bind_Ok in H as (name & _ & H).
  apply bind_Ok in H as (git_slug & [= <-] & H).
  apply bind_Ok in H as (tags_v & [= <-] & H).
  apply bind_Ok in H as (auth_v & Hauth_v & H).
  apply py_get_Ok in Hauth_v as (tags & Htags & ->).
  apply bind_Ok in H as (auth_required & _ & H).
  apply bind_Ok in H as (description_v & [= <-] & H).
  apply bind_Ok in H as (description_v & Hdescription_v & H).
  apply bind_Ok in H as (language_v & Hlanguage_v & H).
  rewrite Htags in Hlanguage_v. injection Hlanguage_v as <-.
  apply bind_Ok in H as (heat_score_v & [= <-] & H).
  apply bind_Ok in H as (upvote_count_v & [= <-] & H).
  apply bind_Ok in H as (description & Hdescription & H).
  apply bind_Ok in H as (language & Hlanguage & H).
  apply bind_Ok in H as (heat_score & Hheat_score & H).
  apply bind_Ok in H as (upvote_count & Hupvote_count & H).
  injection H as <-. simpl. exists bindings, tags.
  repeat split; try done.
  unfold py_or. destruct (py_truthy (default JNull (assoc "description" bindings)));
    simpl in Hdescription_v; injection Hdescription_v as <-; done.
Qed.

(** X1.  A returned entry carries the slug of its record as it is (the empty
    slug when the record has none), its listing URL is the marketplace base
    URL, a slash and that slug, and it starts with no tools. *)
Theorem entry_slug_and_listing_url (repo : Json) (e : ServerInfo.t) :
  _parse_api_server repo = Ok e →
  (field repo "slug" = Some (JStr (ServerInfo.slug e)) ∨
   field repo "slug" = None ∧ ServerInfo.slug e = "") ∧
  ServerInfo.marketplace_url e = MARKETPLACE_BASE_URL +:+ "/" +:+ ServerInfo.slug e ∧
  ServerInfo.tools e = [].
Proof.
  intros He.
  apply parse_api_server_Ok in He
    as (bindings & slug & ? & ? & -> & Hslug & _ & _ & _ & -> & _ & _ & Hurl & Htools).
  split; [|done]. simpl.
  destruct (assoc "slug" bindings) as [v|]; simpl in Hslug.
  - left. by rewrite Hslug.
  - right. by injection Hslug as <-.
Qed.

(** X2.  The GitHub URL of an entry is the GitHub base URL, a slash and the
    [git_slug] of the record when that is a non-empty string; an entry whose
    record has no [git_slug], a [null] one or an empty one has no GitHub
    URL. *)
Theorem github_url_of_git_slug (repo : Json) (e : ServerInfo.t) :
  _parse_api_server repo = Ok e →
  (∀ g, field repo "git_slug" = Some (JStr g) → g ≠ "" →
        ServerInfo.github_url e = Some (GITHUB_BASE_URL +:+ "/" +:+ g)) ∧
  (missing_or_empty (field repo "git_slug") → ServerInfo.github_url e = None).
Proof.
  intros He.
  apply parse_api_server_fields in He as (bindings & tags & -> & _ & -> & _).
  simpl. split.
  - intros g -> Hg. simpl. by rewrite bool_decide_eq_false_2, py_str_JStr.
  - by intros [->|[->| ->]].
Qed.

(** X3.  The description of an entry is the [description] of the record when
    that is a non-empty string.  When the record has no description, a
    [null] one or an empty one, the entry takes the [subtitle] instead, and
    has no description when the subtitle is missing or [null] as well. *)
Theorem description_falls_back_to_subtitle (repo : Json) (e : ServerInfo.t) :
  _parse_api_server repo = Ok e →
  (∀ d, field repo "description" = Some (JStr d) → d ≠ "" →
        ServerInfo.description e = Some d) ∧
  (missing_or_empty (field repo "description") →
   (∀ s, field repo "subtitle" = Some (JStr s) → ServerInfo.description e = Some s) ∧
   (field repo "subtitle" = None ∨ field repo "subtitle" = Some JNull →
    ServerInfo.description e = None)).
Proof.
  intros He.
  apply parse_api_server_fields in He as (bindings & tags & -> & _ & _ & Hd & _).
  simpl. split.
  - intros d Hdesc Hne. rewrite Hdesc in Hd. unfold py_or in Hd. simpl in Hd.
    rewrite bool_decide_eq_false_2 in Hd by done. simpl in Hd.
    rewrite validate_opt_str_JStr in Hd. by injection Hd as <-.
  - intros Hmissing.
    assert (py_or (default JNull (assoc "description" bindings))
                  (default JNull (assoc "subtitle" bindings))
            = default JNull (assoc "subtitle" bindings)) as Hor.
    { by destruct Hmissing as [->|[->| ->]]. }
    rewrite Hor in Hd. split.
    + intros s Hs. rewrite Hs in Hd. simpl in Hd.
      rewrite validate_opt_str_JStr in Hd. by injection Hd as <-.
    + intros [Hs|Hs]; rewrite Hs in Hd; simpl in Hd;
        rewrite validate_opt_str_JNull in Hd; by injection Hd as <-.
Qed.

(** X4.  The language, the heat score and the vote count of an entry are
    those of the record, passed through as they are: any string is taken for
    a language. *)
Theorem language_and_counts_pass_through (repo : Json) (e : ServerInfo.t) :
  _parse_api_server repo = Ok e →
  (∀ tags l, field repo "tags" = Some tags → field tags "language" = Some (JStr l) →
             ServerInfo.language e = Some l) ∧
  (∀ z, field repo "heat_score" = Some (JInt z) → ServerInfo.heat_score e = Some z) ∧
  (∀ z, field repo "upvote_count" = Some (JInt z) → ServerInfo.upvote_count e = Some z).
Proof.
  intros He.
  apply parse_api_server_fields in He
    as (bindings & tags & -> & Htags & _ & _ & Hl & Hh & Hu).
  simpl. split; [|split].
  - intros tags_v l Htags_v Hlang. rewrite Htags_v in Htags. simpl in Htags.
    rewrite <- (py_or_empty_mapping _ _ "language" Htags), Hlang in Hl.
    simpl in Hl. rewrite validate_opt_str_JStr in Hl. by injection Hl as <-.
  - intros z Hz. rewrite Hz in Hh. simpl in Hh.
    rewrite validate_opt_int_JInt in Hh. by injection Hh as <-.
  - intros z Hz. rewrite Hz in Hu. simpl in Hu.
    rewrite validate_opt_int_JInt in Hu. by injection Hu as <-.
Qed.

(** X5.  The normalizer raises an [AttributeError] on a record that is no
    mapping, on a record whose slug is there but is no string, [null]
    included, and on a record whose [tags] is some non-empty value that is
    no mapping. *)
Theorem normalizer_attribute_errors (repo : Json) :
  is_mapping repo = false ∨
  (∃ v, field repo "slug" = Some v ∧ is_str v = false) ∨
  (∃ v, field repo "tags" = Some v ∧ py_truthy v = true ∧ is_mapping v = false) →
  ∃ msg, _parse_api_server repo = Raise (mkExn AttributeError msg).
Proof.
  unfold _parse_api_server.
  intros [Hrepo|[(v & Hslug & Hv)|(v & Htags & Htruthy & Hv)]].
  - destruct repo; try discriminate; simpl; eauto.
  - destruct repo as [| | | | | |bindings]; try discriminate. simpl in *.
    rewrite Hslug. destruct v; try discriminate; simpl; eauto.
  - destruct repo as [| | | | | |bindings]; try discriminate. simpl in *.
    destruct (default (JStr "") (assoc "slug" bindings)) as [| | | |slug| |];
      simpl; eauto.
    destruct (split_parts_Ok slug) as (publisher & name & -> & ->). simpl.
    rewrite Htags. simpl. unfold py_or. rewrite Htruthy.
    destruct v; try discriminate; simpl; eauto.
Qed.

End NormalizerFurther.

Lemma entry_slug_and_listing_url_witness :
  (field record_all_flags "slug" = Some (JStr (ServerInfo.slug entry_all_flags)) ∨
   field record_all_flags "slug" = None ∧ ServerInfo.slug entry_all_flags = "") ∧
  ServerInfo.marketplace_url entry_all_flags
    = MARKETPLACE_BASE_URL +:+ "/" +:+ ServerInfo.slug entry_all_flags ∧
  ServerInfo.tools entry_all_flags = [].
Proof.
  apply (entry_slug_and_listing_url (L:=example_libraries) record_all_flags).
  reflexivity.
Defined.

Lemma github_url_of_git_slug_witness :
  (∀ g, field record_all_flags "git_slug" = Some (JStr g) → g ≠ "" →
        ServerInfo.github_url entry_all_flags = Some (GITHUB_BASE_URL +:+ "/" +:+ g)) ∧
  (missing_or_empty (field record_all_flags "git_slug") →
   ServerInfo.github_url entry_all_flags = None).
Proof.
  apply (github_url_of_git_slug (L:=example_libraries) record_all_flags).
  reflexivity.
Defined.

Lemma description_falls_back_to_subtitle_witness :
  (∀ d, field record_none_flag "description" = Some (JStr d) → d ≠ "" →
        ServerInfo.description entry_none_flag = Some d) ∧
  (missing_or_empty (field record_none_flag "description") →
   (∀ s, field record_none_flag "subtitle" = Some (JStr s) →
         ServerInfo.description entry_none_flag = Some s) ∧
   (field record_none_flag "subtitle" = None ∨
    field record_none_flag "subtitle" = Some JNull →
    ServerInfo.description entry_none_flag = None)).
Proof.
  apply (description_falls_back_to_subtitle (L:=example_libraries) record_none_flag).
  reflexivity.
Defined.

Lemma language_and_counts_pass_through_witness :
  (∀ tags l, field record_all_flags "tags" = Some tags →
             field tags "language" = Some (JStr l) →
             ServerInfo.language entry_all_flags = Some l) ∧
  (∀ z, field record_all_flags "heat_score" = Some (JInt z) →
        ServerInfo.heat_score entry_all_flags = Some z) ∧
  (∀ z, field record_all_flags "upvote_count" = Some (JInt z) →
        ServerInfo.upvote_count entry_all_flags = Some z).
Proof.
  apply (language_and_counts_pass_through (L:=example_libraries) record_all_flags).
  reflexivity.
Defined.

Lemma normalizer_attribute_errors_witness :
  (∃ msg, _parse_api_server (L:=example_libraries) record_null_slug
          = Raise (mkExn AttributeError msg)) ∧
  (∃ msg, _parse_api_server (L:=example_libraries) record_tags_string
          = Raise (mkExn AttributeError msg)).
Proof.
  split.
  - apply (normalizer_attribute_errors (L:=example_libraries) record_null_slug).
    right. left. exists JNull. split; reflexivity.
  - apply (normalizer_attribute_errors (L:=example_libraries) record_tags_string).
    right. right. exists (JStr "python"). repeat split; reflexivity.
Defined.

(** ** Markup extractor and detail fetcher *)

Section ExtractorFurther.
Context `{L : Libraries}.

(** X6.  Every descriptor that the extractor returns has a name that is not
    empty, is no excluded label and is not entirely upper-case; and there
    are at most as many descriptors as the document has capability headings,
    so none for a document without such a heading. *)
Theorem descriptor_names_are_kept
    (html : string) (soup : list Node) (tools : list ToolInfo.t) :
  BeautifulSoup html = Ok soup →
  _parse_tools_from_html html = Ok tools →
  Forall (λ d, kept_name (ToolInfo.name d)) tools ∧
  (length tools ≤ length (capability_headings soup))%nat.
Proof.
  rewrite parse_tools_accepted. intros -> [= <-]. unfold accepted_headings. split.
  - apply Forall_fmap, Forall_forall. intros t Ht.
    by apply list_elem_of_filter in Ht as [Hkept _].
  - rewrite length_fmap. apply length_filter.
Qed.

End ExtractorFurther.

Lemma descriptor_names_are_kept_witness :
  Forall (λ d, kept_name (L:=example_libraries) (ToolInfo.name d))
    [ToolInfo.mk "search" (Some "Finds things."); ToolInfo.mk "fetchpage" None] ∧
  (2 ≤ length (capability_headings (lookup_document page_mixed example_documents)))%nat.
Proof.
  apply (descriptor_names_are_kept (L:=example_libraries) page_mixed);
    vm_compute; reflexivity.
Defined.

(** X7.  What [find_all] takes for a tool card: only [h4] tags that have a
    class attribute containing both markers; and every [h4] of the document
    among whose class tokens one contains "text-lg" and one contains
    "font-semibold", in whatever order and among whatever other tokens. *)
Theorem tool_cards_by_class (soup : list Node) :
  (∀ t, t ∈ find_all "h4" tool_card_class soup →
        tag_name t = "h4" ∧
        ∃ tokens, tag_class t = Some tokens ∧
                  str_contains "text-lg" (str_join " " tokens) = true ∧
                  str_contains "font-semibold" (str_join " " tokens) = true) ∧
  (∀ t tokens a b,
     t ∈ descendant_tags soup → tag_name t = "h4" →
     tag_class t = Some tokens → a ∈ tokens → b ∈ tokens →
     str_contains "text-lg" a = true → str_contains "font-semibold" b = true →
     t ∈ find_all "h4" tool_card_class soup).
Proof.
  rewrite find_all_tool_cards. unfold capability_headings. split.
  - intros t [(Hname & Hlg & Hsb) _]%list_elem_of_filter. split; [done|].
    unfold carries, class_text in *.
    destruct (tag_class t) as [tokens|]; [eauto|discriminate].
  - intros t tokens a b Ht Hname Hclass Ha Hb Hlg Hsb.
    apply list_elem_of_filter. split; [|done].
    unfold capability_heading, carries, class_text. rewrite Hclass.
    split; [done|].
    split; [by apply (str_contains_join _ _ a)|by apply (str_contains_join _ _ b)].
Qed.

(** X8.  The detail fetcher turns every [RequestException] into [None]: a
    transport error gives [None], and so does a response with an HTTP error
    status, 400 to 599; a response with a status below 400 gives its body
    text; an exception of another kind is passed on.  A status from 600 on
    is no error for a response of the [requests] library, which gives its
    body text, and is one for a response of the test double. *)
Theorem detail_fetcher_outcomes (session : Session) (url : string) :
  (∀ e, session url = Raise e → is_RequestException e = true →
        _fetch_detail_page session url = Ok None) ∧
  (∀ e, session url = Raise e → is_RequestException e = false →
        _fetch_detail_page session url = Raise e) ∧
  (∀ response, session url = Ok response → (400 ≤ status_code response < 600)%Z →
        _fetch_detail_page session url = Ok None) ∧
  (∀ response, session url = Ok response → (status_code response < 400)%Z →
        _fetch_detail_page session url = Ok (Some (text response))) ∧
  (∀ response, session url = Ok response → (600 ≤ status_code response)%Z →
        _fetch_detail_page session url =
        match response_class response with
        | RequestsResponse _ _ => Ok (Some (text response))
        | MockResponse => Ok None
        end).
Proof.
  unfold _fetch_detail_page. repeat split.
  - intros e -> He. simpl. by rewrite He.
  - intros e -> He. simpl. by rewrite He.
  - intros response -> Hstatus. simpl.
    by destruct (raise_for_status_error _ Hstatus) as [msg ->].
  - intros response -> Hstatus. simpl. by rewrite raise_for_status_passes.
  - intros response -> Hstatus. simpl. unfold raise_for_status.
    destruct (response_class response); repeat case_bool_decide; first [done|lia].
Qed.

(** ** Enrichment orchestrator *)

Lemma apply_result_idemp r e : apply_result r (apply_result r e) = apply_result r e.
Proof. unfold apply_result. destruct (truthy_opt_str _); [done|]. by destruct (r.1.2). Qed.

Lemma apply_result_same_but_tools r e : same_but_tools e (apply_result r e).
Proof.
  unfold same_but_tools, apply_result.
  destruct (truthy_opt_str _); [done|]. by destruct (r.1.2).
Qed.

Section EnrichmentFurther.
Context `{L : Libraries}.

(** One turn of the loop, on the store: the entry of the result is updated
    in place. *)
Lemma collect_store store errors r :
  (collect (store, errors) r).1 = alter (apply_result r) r.1.1 store.
Proof.
  destruct r as [[server tools] error]. unfold apply_result. simpl.
  destruct (truthy_opt_str error); simpl; [by rewrite alter_id|].
  destruct tools; simpl; [done|by rewrite alter_id].
Qed.

(** The object [l] after the loop, when all the results for [l] are the
    same: that result applied, if there is one. *)
Lemma foldl_collect_lookup rs store errors l r_l :
  Forall (λ r : TaskResult, r.1.1 = l → r = r_l) rs →
  (foldl collect (store, errors) rs).1 !! l =
  if decide (Exists (λ r : TaskResult, r.1.1 = l) rs)
  then apply_result r_l <$> store !! l else store !! l.
Proof.
  intros Hrs. revert store errors.
  induction Hrs as [|r rs Hr Hrs IH]; intros store errors; [done|].
  cbn [foldl].
  destruct (collect (store, errors) r) as [store1 errors1] eqn:Hstep.
  assert (store1 = alter (apply_result r) r.1.1 store) as ->.
  { by rewrite <- (collect_store store errors r), Hstep. }
  rewrite IH. destruct (decide (r.1.1 = l)) as [Hl|Hl].
  - specialize (Hr Hl). subst r_l. rewrite Hl, lookup_alter_eq.
    destruct (decide (Exists _ (r :: rs))) as [_|Hno];
      [|destruct Hno; by apply Exists_cons_hd].
    destruct (decide (Exists _ rs)); [|done].
    destruct (store !! l); simpl; by rewrite ?apply_result_idemp.
  - rewrite lookup_alter_ne by done.
    destruct (decide (Exists _ rs)) as [Hex|Hno];
      destruct (decide (Exists _ (r :: rs))) as [Hex'|Hno']; try done.
    + destruct Hno'. by apply Exists_cons_tl.
    + apply Exists_cons in Hex' as [?|?]; done.
Qed.

(** The store after a run: on every object that the list refers to, the
    result of its task has been applied; the other objects are as before. *)
Lemma enrich_lookup session store servers completed l :
  completion_order completed servers →
  let futures := fetch_tools session store <$> servers in
  (foldl collect (store, []) (omap (λ i, futures !! i) completed)).1 !! l =
  if decide (l ∈ servers)
  then apply_result (fetch_tools session store l) <$> store !! l
  else store !! l.
Proof.
  intros Horder futures.
  assert (Hperm : omap (λ k, futures !! k) completed ≡ₚ futures).
  { apply completed_results. unfold futures. by rewrite length_fmap. }
  rewrite (foldl_collect_lookup _ _ _ l (fetch_tools session store l)).
  - destruct (decide (Exists _ _)) as [Hex|Hno]; destruct (decide (l ∈ servers)) as [Hin|Hout];
      try done.
    + destruct Hout. rewrite Hperm in Hex.
      apply Exists_exists in Hex as (r & (server & -> & Hs)%list_elem_of_fmap & Hl).
      by rewrite fetch_tools_server in Hl; subst.
    + destruct Hno. rewrite Hperm. apply Exists_exists.
      exists (fetch_tools session store l). split; [|apply fetch_tools_server].
      apply list_elem_of_fmap. eauto.
  - rewrite Hperm. apply Forall_forall.
    intros r (server & -> & _)%list_elem_of_fmap. rewrite fetch_tools_server.
    by intros ->.
Qed.

(** The result of the task of an entry, by what its detail page yields. *)
Lemma fetch_tools_found session store server :
  match tools_found session (ServerInfo.marketplace_url (store !!! server)) with
  | Some tools => fetch_tools session store server = (server, Some tools, None)
  | None =>
      ∃ err, err ≠ "" ∧ fetch_tools session store server = (server, None, Some err)
  end.
Proof.
  unfold tools_found, fetch_tools.
  destruct (_fetch_detail_page _ _) as [[body|]|e]; simpl.
  - destruct (decide (body = "")) as [->|Hbody].
    + simpl. eexists. split; [|done]. done.
    + rewrite !bool_decide_eq_false_2 by done. simpl.
      destruct (_parse_tools_from_html body); simpl; [done|].
      eexists. split; [|done]. done.
  - eexists. split; [|done]. done.
  - eexists. split; [|done]. done.
Qed.

Lemma foldl_collect_same_but_tools rs store errors l :
  ServerInfo.set_tools [] <$> (foldl collect (store, errors) rs).1 !! l
  = ServerInfo.set_tools [] <$> store !! l.
Proof.
  revert store errors. induction rs as [|r rs IH]; intros store errors; [done|].
  cbn [foldl]. destruct (collect (store, errors) r) as [store1 errors1] eqn:Hstep.
  assert (store1 = alter (apply_result r) r.1.1 store) as ->.
  { by rewrite <- (collect_store store errors r), Hstep. }
  rewrite IH, lookup_alter. case_decide as Hl; [|done]. subst l.
  destruct (store !! r.1.1) as [e|]; simpl; [|done].
  f_equal. symmetry. apply apply_result_same_but_tools.
Qed.

Lemma run_errors session store servers completed :
  completion_order completed servers →
  let futures := fetch_tools session store <$> servers in
  (foldl collect (store, []) (omap (λ i, futures !! i) completed)).2
  ≡ₚ omap task_error futures.
Proof.
  intros Horder futures. rewrite foldl_collect_errors. simpl.
  apply omap_Permutation, completed_results. unfold futures.
  by rewrite length_fmap.
Qed.

(** X9.  A run of the orchestrator assigns [tools] and nothing else: every
    object of the store is still there with all its other fields as they
    were, no object is added, and the objects that the list of entries does
    not refer to are not touched at all.  This holds whatever the order and
    the outcome of the tasks. *)
Theorem enrichment_assigns_tools_only
    (session : Session) (store store' : gmap loc ServerInfo.t) (servers : list loc)
    (max_workers : Z) (completed : list nat) (errors : list string) :
  _enrich_with_tools session store servers max_workers completed
    = Ok (store', errors) →
  (∀ l e, store !! l = Some e →
          ∃ e', store' !! l = Some e' ∧ same_but_tools e e') ∧
  (∀ l, store !! l = None → store' !! l = None) ∧
  (∀ l, l ∉ servers → store' !! l = store !! l).
Proof.
  unfold _enrich_with_tools. case_bool_decide; [discriminate|].
  intros [= Hrun]. apply (f_equal fst) in Hrun. simpl in Hrun. subst store'.
  split; [|split].
  - intros l e He.
    pose proof (foldl_collect_same_but_tools
      (omap (λ i, (fetch_tools session store <$> servers) !! i) completed)
      store [] l) as Hsame.
    rewrite He in Hsame. simpl in Hsame.
    destruct ((foldl collect _ _).1 !! l) as [e'|]; [|discriminate].
    exists e'. split; [done|].
    unfold same_but_tools, ServerInfo.set_tools in *. simpl in Hsame. congruence.
  - intros l He.
    pose proof (foldl_collect_same_but_tools
      (omap (λ i, (fetch_tools session store <$> servers) !! i) completed)
      store [] l) as Hsame.
    rewrite He in Hsame. by destruct ((foldl collect _ _).1 !! l).
  - intros l Hl. apply foldl_collect_untouched, Forall_forall.
    intros r (i & _ & Hr)%list_elem_of_omap Hserver.
    apply list_elem_of_lookup_2, list_elem_of_fmap in Hr as (server & -> & Hin).
    rewrite fetch_tools_server in Hserver. by subst.
Qed.

(** X10.  The order in which the tasks complete bears on the order of the
    error strings only: two runs over the same entries end with the same
    store, and the error list of the one is a permutation of that of the
    other. *)
Theorem enrichment_whatever_the_order
    (session : Session) (store : gmap loc ServerInfo.t) (servers : list loc)
    (max_workers : Z) (completed1 completed2 : list nat) :
  (0 < max_workers)%Z →
  completion_order completed1 servers →
  completion_order completed2 servers →
  ∃ store' errors1 errors2,
    _enrich_with_tools session store servers max_workers completed1
      = Ok (store', errors1) ∧
    _enrich_with_tools session store servers max_workers completed2
      = Ok (store', errors2) ∧
    errors1 ≡ₚ errors2.
Proof.
  intros Hworkers Horder1 Horder2.
  unfold _enrich_with_tools. rewrite bool_decide_eq_false_2 by lia.
  set (futures := fetch_tools session store <$> servers).
  set (final1 := foldl collect (store, []) (omap (λ k, futures !! k) completed1)).
  set (final2 := foldl collect (store, []) (omap (λ k, futures !! k) completed2)).
  assert (final1.1 = final2.1) as Hstore.
  { apply map_eq. intros l. unfold final1, final2, futures.
    by rewrite !enrich_lookup. }
  exists final1.1, final1.2, final2.2. split; [by destruct final1|].
  split; [rewrite Hstore; by destruct final2|].
  unfold final1, final2, futures. by rewrite !run_errors.
Qed.

(** X11.  The outcome of a run, entry by entry.  An entry whose detail page
    comes with a non-empty body for which the extractor returns has that
    result for [tools] after the run; every other entry, whether the fetch
    failed, the body was empty or the extractor raised, keeps the tools it
    had; either way the other fields are as they were; and the run records
    as many errors as there are entries of the second kind. *)
Theorem enrichment_outcome
    (session : Session) (store : gmap loc ServerInfo.t) (servers : list loc)
    (max_workers : Z) (completed : list nat) :
  (0 < max_workers)%Z →
  completion_order completed servers →
  ∃ store' errors,
    _enrich_with_tools session store servers max_workers completed
      = Ok (store', errors) ∧
    (∀ server e, server ∈ servers → store !! server = Some e →
       ∃ e', store' !! server = Some e' ∧
             ServerInfo.tools e' =
               default (ServerInfo.tools e)
                 (tools_found session (ServerInfo.marketplace_url e)) ∧
             same_but_tools e e') ∧
    length errors =
    length (filter (λ server,
                      tools_found session
                        (ServerInfo.marketplace_url (store !!! server)) = None)
                   servers).
Proof.
  intros Hworkers Horder.
  unfold _enrich_with_tools. rewrite bool_decide_eq_false_2 by lia.
  set (futures := fetch_tools session store <$> servers).
  set (final := foldl collect (store, []) (omap (λ k, futures !! k) completed)).
  exists final.1, final.2. split; [by destruct final|]. split.
  - intros server e Hin He. unfold final, futures.
    rewrite enrich_lookup by done. rewrite decide_True by done.
    pose proof (fetch_tools_found session store server) as Htask.
    rewrite (lookup_total_correct _ _ _ He) in Htask. rewrite He. simpl.
    eexists. split; [done|].
    destruct (tools_found _ _) as [tools|].
    + rewrite Htask. by unfold apply_result.
    + destruct Htask as (err & Herr & ->). unfold apply_result. simpl.
      by rewrite bool_decide_eq_false_2.
  - unfold final, futures. rewrite run_errors by done.
    clear. induction servers as [|server servers IH]; [done|].
    rewrite fmap_cons, filter_cons. simpl.
    pose proof (fetch_tools_found session store server) as Htask.
    destruct (tools_found _ _) as [tools|].
    + rewrite Htask. unfold task_error at 1. simpl. apply IH.
    + destruct Htask as (err & Herr & ->). unfold task_error at 1. simpl.
      rewrite bool_decide_eq_false_2 by done. simpl. f_equal. apply IH.
Qed.

(** X12.  Running the orchestrator again on the entries that a run has
    enriched changes nothing: the second run ends with the store of the
    first, and records the same errors again, up to their order. *)
Theorem enrichment_again_changes_nothing
    (session : Session) (store store' : gmap loc ServerInfo.t) (servers : list loc)
    (max_workers : Z) (completed1 completed2 : list nat) (errors : list string) :
  completion_order completed1 servers →
  completion_order completed2 servers →
  _enrich_with_tools session store servers max_workers completed1
    = Ok (store', errors) →
  ∃ errors',
    _enrich_with_tools session store' servers max_workers completed2
      = Ok (store', errors') ∧
    errors' ≡ₚ errors.
Proof.
  intros Horder1 Horder2. unfold _enrich_with_tools.
  case_bool_decide; [discriminate|]. intros [= Hrun].
  set (futures := fetch_tools session store <$> servers) in *.
  set (rs1 := omap (λ k, futures !! k) completed1) in *.
  assert (store' = (foldl collect (store, []) rs1).1) as Hstore' by by rewrite Hrun.
  assert (errors = (foldl collect (store, []) rs1).2) as -> by by rewrite Hrun.
  clear Hrun.
  assert (Hfields : ∀ server, fetch_tools session store' server
                              = fetch_tools session store server).
  { intros server. rewrite Hstore'. apply fetch_tools_any_time. }
  assert (fetch_tools session store' <$> servers = futures) as ->.
  { unfold futures. apply list_fmap_ext. intros i server _. apply Hfields. }
  assert (Hstore : ∀ l, store' !! l =
            if decide (l ∈ servers)
            then apply_result (fetch_tools session store l) <$> store !! l
            else store !! l).
  { intros l. rewrite Hstore'. by apply enrich_lookup. }
  set (final' := foldl collect (store', []) (omap (λ k, futures !! k) completed2)).
  exists final'.2. split.
  - f_equal. rewrite (surjective_pairing final'). f_equal.
    apply map_eq. intros l. unfold final'.
    rewrite (foldl_collect_lookup _ _ _ l (fetch_tools session store l)).
    + rewrite Hstore. destruct (decide (Exists _ _)) as [Hex|]; [|done].
      case_decide as Hin.
      * destruct (store !! l); simpl; by rewrite ?apply_result_idemp.
      * destruct Hin.
        apply Exists_exists in Hex as (r & (i & _ & Hr)%list_elem_of_omap & Hl).
        apply list_elem_of_lookup_2, list_elem_of_fmap in Hr as (server & -> & ?).
        rewrite fetch_tools_server in Hl. by subst.
    + apply Forall_forall. intros r (i & _ & Hr)%list_elem_of_omap.
      apply list_elem_of_lookup_2, list_elem_of_fmap in Hr as (server & -> & _).
      rewrite fetch_tools_server. by intros ->.
  - unfold final'. rewrite !foldl_collect_errors. simpl.
    apply omap_Permutation. unfold rs1.
    rewrite !completed_results; [done|unfold futures; by rewrite length_fmap..].
Qed.

End EnrichmentFurther.

Lemma example_run :
  _enrich_with_tools (L:=example_libraries) example_session example_store
    example_servers 5 [1; 0] = Ok (example_enriched_store, example_run_errors).
Proof. vm_compute. reflexivity. Defined.

Lemma enrichment_assigns_tools_only_witness :
  (∀ l e, example_store !! l = Some e →
          ∃ e', example_enriched_store !! l = Some e' ∧ same_but_tools e e') ∧
  (∀ l, example_store !! l = None → example_enriched_store !! l = None) ∧
  (∀ l, l ∉ example_servers → example_enriched_store !! l = example_store !! l).
Proof.
  exact (enrichment_assigns_tools_only (L:=example_libraries) example_session
           example_store example_enriched_store example_servers 5 [1; 0]
           example_run_errors example_run).
Defined.

Lemma enrichment_whatever_the_order_witness :
  ∃ store' errors1 errors2,
    _enrich_with_tools (L:=example_libraries) example_session example_store
      example_servers 5 [1; 0] = Ok (store', errors1) ∧
    _enrich_with_tools (L:=example_libraries) example_session example_store
      example_servers 5 [0; 1] = Ok (store', errors2) ∧
    errors1 ≡ₚ errors2.
Proof.
  apply (enrichment_whatever_the_order (L:=example_libraries) example_session
           example_store example_servers 5 [1; 0] [0; 1]).
  - reflexivity.
  - apply perm_swap.
  - apply Permutation_refl.
Defined.

Lemma enrichment_outcome_witness :
  ∃ store' errors,
    _enrich_with_tools (L:=example_libraries) example_session example_store
      example_servers 5 [1; 0] = Ok (store', errors) ∧
    (∀ server e, server ∈ example_servers → example_store !! server = Some e →
       ∃ e', store' !! server = Some e' ∧
             ServerInfo.tools e' =
               default (ServerInfo.tools e)
                 (tools_found (L:=example_libraries) example_session
                    (ServerInfo.marketplace_url e)) ∧
             same_but_tools e e') ∧
    length errors =
    length (filter (λ server,
                      tools_found (L:=example_libraries) example_session
                        (ServerInfo.marketplace_url (example_store !!! server)) = None)
                   example_servers) ∧
    ServerInfo.tools <$> entries_of store' example_servers
      = [[ToolInfo.mk "search" (Some "Finds things.")]; []] ∧
    length errors = 1.
Proof.
  destruct (enrichment_outcome (L:=example_libraries) example_session example_store
              example_servers 5 [1; 0]) as (store' & errors & Hrun & Hentries & Herrors).
  - reflexivity.
  - apply perm_swap.
  - exists store', errors. split; [exact Hrun|]. split; [exact Hentries|].
    split; [exact Herrors|].
    rewrite example_run in Hrun. injection Hrun as <- <-.
    split; vm_compute; reflexivity.
Defined.

Lemma enrichment_again_changes_nothing_witness :
  ∃ errors',
    _enrich_with_tools (L:=example_libraries) example_session example_enriched_store
      example_servers 5 [0; 1] = Ok (example_enriched_store, errors') ∧
    errors' ≡ₚ example_run_errors.
Proof.
  apply (enrichment_again_changes_nothing (L:=example_libraries) example_session
           example_store example_enriched_store example_servers 5 [1; 0] [0; 1]).
  - apply perm_swap.
  - apply Permutation_refl.
  - exact example_run.
Defined.

(** ** Scan orchestrator *)

Lemma mapM_result_Ok {A B} (f : A → result B) (l : list A) (k : list B) :
  mapM f l = Ok k ↔ Forall2 (λ x y, f x = Ok y) l k.
Proof.
  revert k. induction l as [|x l IH]; intros k; simpl.
  - split; [intros [= <-]; constructor|by inversion 1].
  - split.
    + intros H. apply bind_Ok in H as (y & Hy & H).
      apply bind_Ok in H as (k' & Hk' & [= <-]). constructor; [done|by apply IH].
    + inversion 1 as [|? y ? k' Hy Hk']; subst. rewrite Hy. simpl.
      apply IH in Hk'. by rewrite Hk'.
Qed.

Lemma mapM_result_Raise {A B} (f : A → result B) (l : list A) x e :
  x ∈ l → f x = Raise e → ∃ e', mapM f l = Raise e'.
Proof.
  intros Hin Hx. induction l as [|y l IH]; [by apply elem_of_nil in Hin|].
  simpl. apply elem_of_cons in Hin as [<-|Hin].
  - rewrite Hx. simpl. eauto.
  - destruct (f y); simpl; [|eauto].
    destruct (IH Hin) as [e' ->]. simpl. eauto.
Qed.

Lemma omap_length_le {A B} (f : A → option B) (l : list A) :
  (length (omap f l) ≤ length l)%nat.
Proof.
  induction l as [|x l IH]; [done|].
  change (omap f (x :: l)) with (match f x with Some y => y :: omap f l | None => omap f l end).
  destruct (f x); simpl; lia.
Qed.

(** Reading the new objects back through the list of references gives the
    entries, in order. *)
Lemma alloc_read_back (entries : list ServerInfo.t) :
  (λ server, (map_seq 0 entries : gmap loc ServerInfo.t) !!! server)
    <$> seq 0 (length entries) = entries.
Proof.
  apply list_eq. intros i. rewrite list_lookup_fmap.
  destruct (entries !! i) as [e|] eqn:He.
  - rewrite lookup_seq_lt by by eapply lookup_lt_Some. simpl. f_equal.
    apply lookup_total_correct. by rewrite lookup_map_seq_0.
  - rewrite lookup_ge_None_2; [done|].
    rewrite length_seq. by apply lookup_ge_None.
Qed.

Lemma fetch_api_data_serves session data :
  serves_listing session data → _fetch_api_data session = Ok data.
Proof.
  intros (response & Hget & Hstatus & Hjson).
  unfold _fetch_api_data. rewrite Hget. simpl.
  by rewrite raise_for_status_passes.
Qed.

Section ScanFurther.
Context `{L : Libraries}.

(** X13.  A scan without tools returns one entry per record of the listing,
    in the order of the listing, each the normalized record, and no error:
    it asks for nothing but the listing. *)
Theorem scan_without_tools
    (requests_Session : Session) (completed : list nat) (session : option Session)
    (data : Json) (repos : list Json) (entries : list ServerInfo.t) :
  serves_listing (default requests_Session session) data →
  field data "repositories" = Some (JArr repos) →
  Forall2 (λ repo e, _parse_api_server repo = Ok e) repos entries →
  scan_marketplace_sync requests_Session completed false session
  = Ok (ScanResult.mk (Z.of_nat (length repos)) entries []).
Proof.
  intros Hserves Hrepos Hentries. unfold scan_marketplace_sync.
  rewrite (fetch_api_data_serves _ _ Hserves).
  destruct data as [| | | | | |bindings]; try discriminate. simpl in Hrepos.
  rewrite py_get_JObj, Hrepos. simpl.
  apply mapM_result_Ok in Hentries as Hmap. rewrite Hmap. simpl.
  by rewrite alloc_read_back, length_seq, <- (Forall2_length _ _ _ Hentries).
Qed.

(** X14.  A scan with tools returns one entry per record of the listing as
    well, in the order of the listing; each is the normalized record, its
    tools apart; and there are at most as many errors as entries. *)
Theorem scan_with_tools
    (requests_Session : Session) (completed : list nat) (session : option Session)
    (data : Json) (repos : list Json) (entries : list ServerInfo.t) :
  serves_listing (default requests_Session session) data →
  field data "repositories" = Some (JArr repos) →
  Forall2 (λ repo e, _parse_api_server repo = Ok e) repos entries →
  completed ≡ₚ seq 0 (length repos) →
  ∃ r, scan_marketplace_sync requests_Session completed true session = Ok r ∧
       ScanResult.total_servers r = Z.of_nat (length repos) ∧
       Forall2 same_but_tools entries (ScanResult.servers r) ∧
       (length (ScanResult.errors r) ≤ length repos)%nat.
Proof.
  intros Hserves Hrepos Hentries Horder. unfold scan_marketplace_sync.
  rewrite (fetch_api_data_serves _ _ Hserves).
  destruct data as [| | | | | |bindings]; try discriminate. simpl in Hrepos.
  rewrite py_get_JObj, Hrepos. simpl.
  apply mapM_result_Ok in Hentries as Hmap. rewrite Hmap. simpl.
  pose proof (Forall2_length _ _ _ Hentries) as Hlen. rewrite length_seq.
  case_bool_decide as Hempty; simpl.
  { eexists. split; [done|]. simpl. rewrite alloc_read_back, Hlen.
    split; [done|]. split; [|lia].
    clear. induction entries; by constructor. }
  unfold _enrich_with_tools. simpl.
  set (futures := fetch_tools _ _ <$> seq 0 (length entries)).
  set (final := foldl collect _ _).
  assert (Hsame : ∀ i : nat, ServerInfo.set_tools [] <$> final.1 !! i
                             = ServerInfo.set_tools [] <$> entries !! i).
  { intros i. unfold final. by rewrite foldl_collect_same_but_tools, lookup_map_seq_0. }
  assert (Herrors : (length final.2 ≤ length repos)%nat).
  { unfold final. rewrite foldl_collect_errors. simpl.
    assert (Hperm : omap (λ k, futures !! k) completed ≡ₚ futures).
    { apply completed_results. unfold futures.
      by rewrite length_fmap, length_seq, <- Hlen. }
    rewrite Hperm. etrans; [apply omap_length_le|].
    unfold futures. by rewrite length_fmap, length_seq, Hlen. }
  clearbody final. destruct final as [store' errors]. simpl in Herrors |- *.
  eexists. split; [done|]. simpl. rewrite Hlen.
  split; [done|]. split; [|lia].
  apply Forall2_same_length_lookup. split; [by rewrite length_fmap, length_seq|].
  intros i e e' He He'. rewrite list_lookup_fmap in He'.
  rewrite lookup_seq_lt in He' by by eapply lookup_lt_Some.
  simpl in He'. injection He' as <-.
  specialize (Hsame i). simpl in Hsame. rewrite He in Hsame.
  rewrite lookup_total_alt. unfold loc in *.
  destruct (store' !! i) as [e'|]; simpl in Hsame |- *; [|discriminate Hsame].
  unfold same_but_tools, ServerInfo.set_tools in *. congruence.
Qed.

(** X15.  One record that the normalizer raises on aborts the scan: the scan
    raises, with or without tools, and returns no result for the other
    records. *)
Theorem malformed_record_aborts_scan
    (requests_Session : Session) (completed : list nat) (include_tools : bool)
    (session : option Session) (data : Json) (repos : list Json) (repo : Json)
    (e : PyExn) :
  serves_listing (default requests_Session session) data →
  field data "repositories" = Some (JArr repos) →
  repo ∈ repos →
  _parse_api_server repo = Raise e →
  ∃ e', scan_marketplace_sync requests_Session completed include_tools session
        = Raise e'.
Proof.
  intros Hserves Hrepos Hin Hraise. unfold scan_marketplace_sync.
  rewrite (fetch_api_data_serves _ _ Hserves).
  destruct data as [| | | | | |bindings]; try discriminate. simpl in Hrepos.
  rewrite py_get_JObj, Hrepos. simpl.
  destruct (mapM_result_Raise _ _ _ _ Hin Hraise) as [e' ->]. simpl. eauto.
Qed.

(** X16.  A listing that is a mapping without the key [repositories], or
    with an empty list under it, gives the empty result: no entries, a total
    of 0 and no error, with or without tools. *)
Theorem scan_of_empty_listing
    (requests_Session : Session) (completed : list nat) (include_tools : bool)
    (session : option Session) (data : Json) :
  serves_listing (default requests_Session session) data →
  is_mapping data = true →
  field data "repositories" = None ∨ field data "repositories" = Some (JArr []) →
  scan_marketplace_sync requests_Session completed include_tools session
  = Ok (ScanResult.mk 0 [] []).
Proof.
  intros Hserves Hmapping Hrepos. unfold scan_marketplace_sync.
  rewrite (fetch_api_data_serves _ _ Hserves).
  destruct data as [| | | | | |bindings]; try discriminate. simpl in Hrepos.
  rewrite py_get_JObj.
  destruct Hrepos as [-> | ->]; simpl; by rewrite andb_false_r.
Qed.

(** X17.  When the listing comes with a good status but its body does not
    decode, the scan does as the decoding error says: an error that is no
    [RequestException] is raised out of the scan, one that is a
    [RequestException] is reported as a failed bulk fetch. *)
Theorem undecodable_listing
    (requests_Session : Session) (completed : list nat) (include_tools : bool)
    (session : option Session) (response : Response) (e : PyExn) :
  default requests_Session session MARKETPLACE_API_URL = Ok response →
  (status_code response < 400)%Z →
  json response = Raise e →
  (is_RequestException e = false →
   scan_marketplace_sync requests_Session completed include_tools session = Raise e) ∧
  (is_RequestException e = true →
   reports_bulk_failure
     (scan_marketplace_sync requests_Session completed include_tools session)).
Proof.
  intros Hget Hstatus Hjson.
  assert (_fetch_api_data (default requests_Session session) = Raise e) as Hfetch.
  { unfold _fetch_api_data. rewrite Hget. simpl.
    by rewrite raise_for_status_passes. }
  unfold scan_marketplace_sync, reports_bulk_failure. rewrite Hfetch.
  split; intros ->; [done|].
  eexists. split; [done|]. by apply str_contains_append_l.
Qed.

End ScanFurther.

Lemma example_session_serves_listing : serves_listing example_session example_listing.
Proof.
  eexists. split; [vm_compute; reflexivity|]. split; [reflexivity|reflexivity].
Defined.

Lemma example_listing_normalizes :
  Forall2 (λ repo e, _parse_api_server (L:=example_libraries) repo = Ok e)
    [record_all_flags; record_none_flag] [entry_all_flags; entry_none_flag].
Proof. repeat constructor. Defined.

Lemma scan_without_tools_witness :
  scan_marketplace_sync (L:=example_libraries) example_session [] false None
  = Ok (ScanResult.mk 2 [entry_all_flags; entry_none_flag] []).
Proof.
  apply (scan_without_tools (L:=example_libraries) example_session [] None
           example_listing [record_all_flags; record_none_flag]).
  - exact example_session_serves_listing.
  - reflexivity.
  - exact example_listing_normalizes.
Defined.

Lemma scan_with_tools_witness :
  ∃ r, scan_marketplace_sync (L:=example_libraries) example_session [1; 0] true None
         = Ok r ∧
       ScanResult.total_servers r = 2%Z ∧
       Forall2 same_but_tools [entry_all_flags; entry_none_flag] (ScanResult.servers r) ∧
       (length (ScanResult.errors r) ≤ 2)%nat.
Proof.
  apply (scan_with_tools (L:=example_libraries) example_session [1; 0] None
           example_listing [record_all_flags; record_none_flag]).
  - exact example_session_serves_listing.
  - reflexivity.
  - exact example_listing_normalizes.
  - apply perm_swap.
Defined.

Lemma malformed_record_aborts_scan_witness :
  ∃ e', scan_marketplace_sync (L:=example_libraries) example_session_bad_record
          [] false None = Raise e'.
Proof.
  apply (malformed_record_aborts_scan (L:=example_libraries)
           example_session_bad_record [] false None
           (JObj [("repositories", JArr [record_all_flags; record_null_slug])])
           [record_all_flags; record_null_slug] record_null_slug
           (mkExn AttributeError "object has no attribute 'split'")).
  - eexists. split; [vm_compute; reflexivity|]. split; reflexivity.
  - reflexivity.
  - apply elem_of_cons. right. apply elem_of_cons. by left.
  - reflexivity.
Defined.

Lemma scan_of_empty_listing_witness :
  scan_marketplace_sync (L:=example_libraries) example_session_no_key [] true None
  = Ok (ScanResult.mk 0 [] []).
Proof.
  apply (scan_of_empty_listing (L:=example_libraries) example_session_no_key [] true
           None (JObj [("count", JInt 0)])).
  - eexists. split; [vm_compute; reflexivity|]. split; reflexivity.
  - reflexivity.
  - left. reflexivity.
Defined.

Lemma undecodable_listing_witness :
  (is_RequestException (mkExn ValueError "No JSON data for this response") = false →
   scan_marketplace_sync (L:=example_libraries) example_session_no_json [] false None
   = Raise (mkExn ValueError "No JSON data for this response")) ∧
  (is_RequestException (mkExn ValueError "No JSON data for this response") = true →
   reports_bulk_failure
     (scan_marketplace_sync (L:=example_libraries) example_session_no_json [] false None)).
Proof.
  apply (undecodable_listing (L:=example_libraries) example_session_no_json [] false
           None (_MockResponse 200 JNull "<html></html>")).
  - vm_compute. reflexivity.
  - reflexivity.
  - reflexivity.
Defined.

(** ** The mocked network *)

(** X18.  A mocked GET returns, for a URL, the response that was registered
    last for it: it has the status as given, and the text as given or the
    empty text; its [json()] returns the JSON as given, and raises a
    [ValueError] when none was given, [None] that is; its
    [raise_for_status()] raises from the status 400 on.  Registering a URL
    leaves the other URLs as they were; and a GET of a URL that is not
    registered raises a [RequestException] that names the URL. *)
Theorem mocked_get_round_trip
    (registry : gmap string Response) (url : string)
    (json_ : Json) (text_ : option string) (status : Z) :
  let registry' := Mocker_get registry url json_ text_ status in
  (∃ response,
     _mock_get registry' url = Ok response ∧
     status_code response = status ∧
     text response = default "" text_ ∧
     (json_ ≠ JNull → json response = Ok json_) ∧
     (json_ = JNull → ∃ msg, json response = Raise (mkExn ValueError msg)) ∧
     ((400 ≤ status)%Z ↔ ∃ e, raise_for_status response = Raise e)) ∧
  (∀ url', url' ≠ url → _mock_get registry' url' = _mock_get registry url') ∧
  (∀ url', registry !! url' = None →
     ∃ msg, _mock_get registry url' = Raise (mkExn RequestException msg) ∧
            str_contains url' msg = true).
Proof.
  unfold _mock_get, Mocker_get. repeat split.
  - rewrite lookup_insert_eq. eexists. split; [done|]. simpl.
    split; [done|]. split; [done|]. split; [|split].
    + intros Hjson. by destruct json_.
    + intros ->. by eexists.
    + unfold raise_for_status. simpl. case_bool_decide; split; eauto; try done.
      by intros [e ?].
  - intros url' Hne. by rewrite lookup_insert_ne.
  - intros url' ->. eexists. split; [done|].
    apply str_contains_append_r, str_contains_refl.
Qed.

(** X19.  On the mocked network the detail fetcher gives [None] for a page
    that is not registered and for one registered with a status of 400 or
    more, and the registered text for one registered with a lower status:
    the empty text when the page was registered without one. *)
Theorem mocked_detail_page
    (registry : gmap string Response) (url : string) :
  (registry !! url = None →
   _fetch_detail_page (_mock_get registry) url = Ok None) ∧
  (∀ json_ text_ status,
     _fetch_detail_page (_mock_get (Mocker_get registry url json_ text_ status)) url
     = if bool_decide (400 ≤ status)%Z then Ok None else Ok (Some (default "" text_))).
Proof.
  unfold _fetch_detail_page, _mock_get, Mocker_get, raise_for_status. split.
  - by intros ->.
  - intros json_ text_ status. rewrite lookup_insert_eq. simpl.
    by case_bool_decide.
Qed.
